(** * Prime number algorithms of [sample_project.algorithms.primes]

    A shallow embedding of [primes.py] and the proofs of its contract:
    the Sieve of Eratosthenes ([generate_sieve]), the sieve lookups built on
    it ([is_prime], [sum_primes], [get_all_primes_up_to],
    [sum_primes_using_sieve]) and trial division ([prime_factors]).

    Python integers are unbounded, so they are [Z].  A Python list is a
    [list], indexed through [getitem]/[setitem], which keep Python's
    negative indices and its [IndexError].  A [while] loop takes a budget of
    iterations and yields [OutOfFuel] when the budget is used up; the
    theorems show that a budget above the argument is always enough. *)

From Stdlib Require Import ZArith Zdivisibility Lia String DecimalString.
From stdpp Require Import base tactics option list list_numbers sorting.

Local Open Scope Z_scope.

(** ** Outcomes of a Python call *)

Inductive exn : Type :=
  | ValueError (msg : string)
  | IndexError
  | ZeroDivisionError.

Inductive outcome (A : Type) : Type :=
  | Return (a : A)
  | Raise (e : exn)
  | OutOfFuel.

Arguments Return {A} a.
Arguments Raise {A} e.
Arguments OutOfFuel {A}.

Definition bind {A B : Type} (m : outcome A) (k : A -> outcome B) : outcome B :=
  match m with
  | Return a => k a
  | Raise e => Raise e
  | OutOfFuel => OutOfFuel
  end.

Declare Scope py_scope.
Delimit Scope py_scope with py.
Notation "'let*' x ':=' m 'in' k" := (bind m (fun x => k))
  (at level 10, x pattern, m at level 100, k at level 200) : py_scope.
Local Open Scope py_scope.

(** ** Python primitives *)

(** [str(n)] of an integer: decimal digits, with a leading [-] when negative. *)
Definition str (n : Z) : string := NilZero.string_of_int (Z.to_int n).

(** [range(a, b)]: the integers [a, a+1, ..., b-1]. *)
Definition range (a b : Z) : list Z := seqZ a (b - a).

(** [[x] * k]: [k] copies of [x], none when [k] is negative. *)
Definition list_mul {A : Type} (x : A) (k : Z) : list A := replicate (Z.to_nat k) x.

(** The position a Python index designates: a negative index counts from the
    end of the list; an index outside the list designates nothing. *)
Definition py_index {A : Type} (l : list A) (i : Z) : option nat :=
  let len := Z.of_nat (length l) in
  let k := if i <? 0 then i + len else i in
  if (0 <=? k) && (k <? len) then Some (Z.to_nat k) else None.

(** [l[i]] *)
Definition getitem {A : Type} (l : list A) (i : Z) : outcome A :=
  match py_index l i with
  | Some k => match l !! k with Some x => Return x | None => Raise IndexError end
  | None => Raise IndexError
  end.

(** [l[i] = x] *)
Definition setitem {A : Type} (l : list A) (i : Z) (x : A) : outcome (list A) :=
  match py_index l i with
  | Some k => Return (<[k:=x]> l)
  | None => Raise IndexError
  end.

(** [a % b] and [a // b]: floor division, as [Z.modulo] and [Z.div]. *)
Definition py_mod (a b : Z) : outcome Z :=
  if b =? 0 then Raise ZeroDivisionError else Return (a mod b).

Definition py_floordiv (a b : Z) : outcome Z :=
  if b =? 0 then Raise ZeroDivisionError else Return (a / b).

(** [for x in xs: s = body x s] *)
Fixpoint for_loop {S : Type} (xs : list Z) (body : Z -> S -> outcome S) (s : S)
  : outcome S :=
  match xs with
  | [] => Return s
  | x :: xs' => let* s' := body x s in for_loop xs' body s'
  end.

(** [while cond s: s = body s], with at most [fuel] evaluations of [cond]
    that find it true. *)
Fixpoint while_loop {S : Type} (fuel : nat) (cond : S -> outcome bool)
    (body : S -> outcome S) (s : S) : outcome S :=
  let* c := cond s in
  if c then
    match fuel with
    | O => OutOfFuel
    | Datatypes.S fuel' => let* s' := body s in while_loop fuel' cond body s'
    end
  else Return s.

(** ** The module's functions *)

Definition generate_sieve (fuel : nat) (n : Z) : outcome (list bool) :=
  if n <? 0 then
    Raise (ValueError (String.append "Limit cannot be negative: " (str n)))
  else if n <? 2 then
    Return (list_mul false (n + 1))
  else
    (* Initialize all numbers as potentially prime *)
    let* is_prime := for_loop (range 2 (n + 1))
                  (fun i is_prime => setitem is_prime i true)
                  (list_mul false (n + 1)) in
    (* Sieve of Eratosthenes algorithm *)
    let* (_, is_prime) :=
      while_loop (S := Z * list bool) fuel
        (fun '(i, _) => Return (i * i <=? n))
        (fun '(i, is_prime) =>
           let* p := getitem is_prime i in
           let* is_prime :=
             (if p then
                (* Mark all multiples of i as composite *)
                let* (_, is_prime) :=
                  while_loop (S := Z * list bool) fuel
                    (fun '(j, _) => Return (j <=? n))
                    (fun '(j, is_prime) =>
                       let* is_prime := setitem is_prime j false in
                       Return (j + i, is_prime))
                    (i * i, is_prime) in
                Return is_prime
              else Return is_prime) in
           Return (i + 1, is_prime))
        (2, is_prime) in
    Return is_prime.

Definition is_prime (fuel : nat) (n : Z) : outcome bool :=
  if n <? 2 then Return false
  else
    let* sieve := generate_sieve fuel n in
    getitem sieve n.

Definition sum_primes (fuel : nat) (n : Z) : outcome Z :=
  if n <? 0 then
    Raise (ValueError (String.append "Upper bound cannot be negative: " (str n)))
  else if n <=? 2 then
    Return 0
  else
    let* sieve := generate_sieve fuel (n - 1) in
    for_loop (range 2 n)
      (fun i total =>
         let* p := getitem sieve i in
         if p then Return (total + i) else Return total)
      0.

Definition get_all_primes_up_to (fuel : nat) (n : Z) : outcome (list Z) :=
  if n <? 0 then
    Raise (ValueError (String.append "Upper bound cannot be negative: " (str n)))
  else
    let primes := [] in
    if n <? 2 then
      Return primes
    else
      let* sieve := generate_sieve fuel n in
      for_loop (range 2 (n + 1))
        (fun i primes =>
           let* p := getitem sieve i in
           if p then Return (primes ++ [i]) else Return primes)
        primes.

Definition prime_factors (fuel : nat) (n : Z) : outcome (list Z) :=
  if n <=? 0 then
    Raise (ValueError (String.append "Number must be positive: " (str n)))
  else
    let factors := [] in
    (* Trial division up to sqrt(n) *)
    let* (_, n, factors) :=
      while_loop (S := Z * Z * list Z) fuel
        (fun '(i, n, _) => Return (i * i <=? n))
        (fun '(i, n, factors) =>
           let* (n, factors) :=
             while_loop (S := Z * list Z) fuel
               (fun '(n, _) => let* r := py_mod n i in Return (r =? 0))
               (fun '(n, factors) =>
                  let factors := factors ++ [i] in
                  let* n := py_floordiv n i in
                  Return (n, factors))
               (n, factors) in
           Return (i + 1, n, factors))
        (2, n, factors) in
    (* If n > 1, then it's a prime factor *)
    let factors := if 1 <? n then factors ++ [n] else factors in
    Return factors.

Definition sum_primes_using_sieve (fuel : nat) (n : Z) : outcome Z :=
  if n <? 0 then
    Raise (ValueError (String.append "Upper limit cannot be negative: " (str n)))
  else if n <? 2 then
    Return 0
  else
    let* sieve := generate_sieve fuel (n - 1) in
    (* Sum all prime numbers *)
    for_loop (range 2 n)
      (fun i total =>
         let* p := getitem sieve i in
         if p then Return (total + i) else Return total)
      0.

(** ** Notions the contract is stated with *)

(** [t] is a table over [0..n] whose flag at [k] says whether [P k]. *)
Definition table_of (n : Z) (P : Z -> Prop) (t : list bool) : Prop :=
  Z.of_nat (length t) = n + 1 /\
  forall k, 0 <= k <= n ->
    exists b, t !! Z.to_nat k = Some b /\ (b = true <-> P k).

(** [k] is still a candidate once every [d] below [i] has been sieved with:
    no [d] in [2, i) divides it, except [k] itself. *)
Definition unsieved (i k : Z) : Prop :=
  2 <= k /\ forall d, 2 <= d < i -> (d | k) -> d = k.

(** [k] is one of the multiples [i*i, i*i + i, ...] that lie below [j]. *)
Definition struck (i j k : Z) : Prop := (i | k) /\ i * i <= k < j.

(** The product and the sum of a sequence of integers. *)
Definition product (l : list Z) : Z := foldr Z.mul 1 l.
Definition sum (l : list Z) : Z := foldr Z.add 0 l.

(** [l] lists, in strictly ascending order, the primes below [b]. *)
Definition primes_below (b : Z) (l : list Z) : Prop :=
  StronglySorted Z.lt l /\ forall p, p ∈ l <-> Z.prime p /\ p < b.

(** No [d] in [2, i) divides [m]. *)
Definition no_small_divisor (i m : Z) : Prop :=
  forall d, 2 <= d < i -> ~ (d | m).

(** What trial division has reached: [fs] holds primes up to [c] in
    ascending order, [m] is what remains of [n], and nothing below [i]
    divides [m] any more. *)
Definition factoring (n c i m : Z) (fs : list Z) : Prop :=
  1 <= m /\ product fs * m = n /\ Forall Z.prime fs /\
  StronglySorted Z.le fs /\ Forall (fun p => p <= c) fs /\
  no_small_divisor i m.

(** A budget that covers every loop run on argument [n]. *)
Definition enough (fuel : nat) (n : Z) : Prop := n <= Z.of_nat fuel.

(** How many times [v] occurs in [l]. *)
Definition occurrences (v : Z) (l : list Z) : Z :=
  Z.of_nat (length (filter (fun x => x = v) l)).

(** ** The other modules of the package

    The functions below test their arguments against [None], so an argument
    that may be [None] is an [option].  A [TypeError], and an [IndexError]
    that the code raises itself with a message, have no counterpart among
    the exceptions of the prime module: they are the rejections of a
    [guarded] call. *)

Inductive guard_error : Type :=
  | TypeError (msg : string)
  | IndexErrorMsg (msg : string).

Inductive guarded (A : Type) : Type :=
  | Rejected (e : guard_error)
  | Run (r : outcome A).

Arguments Rejected {A} e.
Arguments Run {A} r.

(** Sequencing and [for] loops of calls that may be rejected midway. *)
Definition guarded_bind {A B : Type} (m : guarded A) (k : A -> guarded B)
  : guarded B :=
  match m with
  | Rejected e => Rejected e
  | Run (Return a) => k a
  | Run (Raise e) => Run (Raise e)
  | Run OutOfFuel => Run OutOfFuel
  end.

Fixpoint for_loop_guarded {S : Type} (xs : list Z)
    (body : Z -> S -> guarded S) (s : S) : guarded S :=
  match xs with
  | [] => Run (Return s)
  | x :: xs' => guarded_bind (body x s) (for_loop_guarded xs' body)
  end.

(** [len(l)] *)
Definition len {A : Type} (l : list A) : Z := Z.of_nat (length l).

(** The pieces of an f-string, put together. *)
Local Infix "+++" := String.append (at level 60, right associativity).

(** [range(a, b, step)] for a step other than zero. *)
Definition range_step (a b step : Z) : list Z :=
  if 0 <? step then
    (fun k => a + k * step) <$> seqZ 0 ((b - a + step - 1) / step)
  else
    (fun k => a + k * step) <$> seqZ 0 ((a - b - step - 1) / (- step)).

(** [l[a:b]]: a negative bound counts from the end, and both bounds are
    clamped to the list. *)
Definition slice_bound {A : Type} (l : list A) (i : Z) : Z :=
  let i := if i <? 0 then i + len l else i in
  Z.max 0 (Z.min i (len l)).

Definition getslice {A : Type} (l : list A) (a b : Z) : list A :=
  let a := slice_bound l a in
  let b := slice_bound l b in
  take (Z.to_nat (b - a)) (drop (Z.to_nat a) l).

(** A [dict[int, int]], in insertion order: [d.get(key, default)],
    [d[key] = value] and [d.values()]. *)
Definition dict : Type := list (Z * Z).

Fixpoint dict_get (d : dict) (key default : Z) : Z :=
  match d with
  | [] => default
  | (k, v) :: d' => if k =? key then v else dict_get d' key default
  end.

Fixpoint dict_set (d : dict) (key value : Z) : dict :=
  match d with
  | [] => [(key, value)]
  | (k, v) :: d' =>
      if k =? key then (k, value) :: d' else (k, v) :: dict_set d' key value
  end.

Definition dict_values (d : dict) : list Z := d.*2.

Module control_single.

Definition sum_range (n : Z) : outcome Z :=
  if n <? 0 then
    Raise (ValueError ("n must be non-negative, got: " +++ str n))
  else Return (n * (n - 1) / 2).

Definition max_array (array : option (list Z)) : guarded Z :=
  match array with
  | None => Rejected (TypeError "Array cannot be None")
  | Some array =>
      Run (if len array =? 0 then
             Raise (ValueError "Array cannot be empty")
           else
             let* max_val := getitem array 0 in
             for_loop array
               (fun i max_val => if i >? max_val then Return i else Return max_val)
               max_val)
  end.

Definition sum_modulus (n m : Z) : outcome Z :=
  if n <? 0 then
    Raise (ValueError ("n must be non-negative, got: " +++ str n))
  else if m <=? 0 then
    Raise (ValueError ("Modulus must be positive, got: " +++ str m))
  else
    let* k := py_floordiv (n - 1) m in
    Return (m * k * (k + 1) / 2).

End control_single.

Module control_double.

Definition sum_square (n : option Z) : guarded Z :=
  match n with
  | None => Rejected (TypeError "n cannot be None")
  | Some n =>
      Run (if n <? 0 then
             Raise (ValueError ("n must be non-negative, got: " +++ str n))
           else Return ((n - 1) * n * (2 * n - 1) / 6))
  end.

Definition sum_triangle (n : option Z) : guarded Z :=
  match n with
  | None => Rejected (TypeError "n cannot be None")
  | Some n =>
      Run (if n <? 0 then
             Raise (ValueError ("n must be non-negative, got: " +++ str n))
           else Return ((n - 1) * n * (n + 1) / 6))
  end.

Definition count_pairs (arr : option (list Z)) : guarded Z :=
  match arr with
  | None => Rejected (TypeError "Array cannot be None")
  | Some arr =>
      Run ((* Track frequency of each value *)
           let frequency_map : dict := [] in
           (* Single pass to count frequencies *)
           let* frequency_map :=
             for_loop arr
               (fun value frequency_map =>
                  Return (dict_set frequency_map value
                            (dict_get frequency_map value 0 + 1)))
               frequency_map in
           (* Count elements that appear exactly twice *)
           for_loop (dict_values frequency_map)
             (fun freq count =>
                if freq =? 2 then Return (count + 1) else Return count)
             0)
  end.

Definition count_duplicates (arr0 arr1 : option (list Z)) : guarded Z :=
  match arr0 with
  | None => Rejected (TypeError "First array cannot be None")
  | Some arr0 =>
      match arr1 with
      | None => Rejected (TypeError "Second array cannot be None")
      | Some arr1 =>
          Run (if negb (len arr0 =? len arr1) then
                 Raise (ValueError
                          ("Arrays must have equal length, got: " +++ str (len arr0) +++ " and " +++ str (len arr1)))
               else
                 (* Single-pass comparison *)
                 for_loop (range 0 (len arr0))
                   (fun i count =>
                      let* a := getitem arr0 i in
                      let* b := getitem arr1 i in
                      if a =? b then Return (count + 1) else Return count)
                   0)
      end
  end.

(** [matrix[i]] is read once per row: nothing modifies the matrix between
    the reads of the source. *)
Definition sum_matrix (matrix : option (list (option (list Z)))) : guarded Z :=
  match matrix with
  | None => Rejected (TypeError "Matrix cannot be None")
  | Some matrix =>
      let total := 0 in
      let n := len matrix in
      for_loop_guarded (range 0 n)
        (fun i total =>
           guarded_bind (Run (getitem matrix i))
             (fun row =>
                match row with
                | None => Rejected (TypeError "Matrix row cannot be None")
                | Some row =>
                    if negb (len row =? n) then
                      Run (Raise (ValueError
                             ("Matrix must be square, expected " +++ str n +++
                              " columns but row " +++ str i +++ " has " +++
                              str (len row))))
                    else
                      Run (for_loop (range 0 n)
                             (fun j total =>
                                let* x := getitem row j in
                                Return (total + x))
                             total)
                end))
        total
  end.

End control_double.

Module datastructures_vector.

Definition modify_vector (vector : option (list Z)) : guarded (list Z) :=
  match vector with
  | None => Rejected (TypeError "ArrayList cannot be null")
  | Some vector =>
      Run (for_loop (range 0 (len vector))
             (fun i vector =>
                let* x := getitem vector i in
                setitem vector i (x + 1))
             vector)
  end.

Definition search_vector (vector : option (list Z)) (value : Z)
  : guarded (list Z) :=
  match vector with
  | None => Rejected (TypeError "ArrayList cannot be null")
  | Some vector =>
      Run (for_loop (range 0 (len vector))
             (fun i indices =>
                let* x := getitem vector i in
                if x =? value then Return (indices ++ [i]) else Return indices)
             [])
  end.

Definition reverse_vector (vector : option (list Z)) : guarded (list Z) :=
  match vector with
  | None => Rejected (TypeError "ArrayList cannot be null")
  | Some vector =>
      Run (for_loop (range_step (len vector - 1) (-1) (-1))
             (fun i result =>
                let* x := getitem vector i in
                Return (result ++ [x]))
             [])
  end.

Definition rotate_vector (vector : option (list Z)) (positions : Z)
  : guarded (list Z) :=
  match vector with
  | None => Rejected (TypeError "ArrayList cannot be null")
  | Some vector =>
      Run (if positions <? 0 then
             Raise (ValueError
                      ("Rotation amount cannot be negative, got: " +++ str positions))
           else if (len vector >? 0) && (positions >=? len vector) then
             Raise (ValueError
                      ("Rotation amount must be less than size, " +++ "got: " +++ str positions +++ " for size: " +++ str (len vector)))
           else
             let* result :=
               for_loop (range positions (len vector))
                 (fun i result =>
                    let* x := getitem vector i in
                    Return (result ++ [x]))
                 [] in
             for_loop (range 0 positions)
               (fun i result =>
                  let* x := getitem vector i in
                  Return (result ++ [x]))
               result)
  end.

Definition merge_vectors (vector1 vector2 : option (list Z))
  : guarded (list Z) :=
  match vector1 with
  | None => Rejected (TypeError "First ArrayList cannot be null")
  | Some vector1 =>
      match vector2 with
      | None => Rejected (TypeError "Second ArrayList cannot be null")
      | Some vector2 =>
          Run (let* result :=
                 for_loop (range 0 (len vector1))
                   (fun i result =>
                      let* x := getitem vector1 i in
                      Return (result ++ [x]))
                   [] in
               for_loop (range 0 (len vector2))
                 (fun i result =>
                    let* x := getitem vector2 i in
                    Return (result ++ [x]))
                 result)
      end
  end.

End datastructures_vector.

Module datastructures_linked_list.

(** A [deque[int]] is the list of its elements, front first. *)
Definition slice (linked_list : option (list Z)) (start end_ : Z)
  : guarded (list Z) :=
  match linked_list with
  | None => Rejected (TypeError "LinkedList cannot be None")
  | Some linked_list =>
      let size := len linked_list in
      if (start <? 0) || (start >? size) then
        Rejected (IndexErrorMsg
                    ("Start index out of bounds: " +++ str start +++ " for size: " +++ str size))
      else if (end_ <? 0) || (end_ >? size) then
        Rejected (IndexErrorMsg
                    ("End index out of bounds: " +++ str end_ +++ " for size: " +++ str size))
      else if start >? end_ then
        Run (Raise (ValueError
                      ("Start index (" +++ str start +++ ") cannot be greater than end index (" +++ str end_ +++ ")")))
      else
        (* Convert to list for slicing, then back to deque *)
        let tmp := linked_list in
        Run (Return (getslice tmp start end_))
  end.

End datastructures_linked_list.

Module algorithms_sort.

Definition dutch_flag_partition (arr : option (list Z)) (pivot : Z)
  : guarded (list Z) :=
  match arr with
  | None => Rejected (TypeError "List cannot be None")
  | Some arr =>
      Run ((* Create a copy to avoid modifying the original *)
           let result := arr in
           let next_value := 0 in
           (* First pass: move all elements < pivot to the front *)
           let* (result, next_value) :=
             for_loop (S := list Z * Z) (range 0 (len result))
               (fun i '(result, next_value) =>
                  let* x := getitem result i in
                  if x <? pivot then
                    let* a := getitem result next_value in
                    let* b := getitem result i in
                    let* result := setitem result i a in
                    let* result := setitem result next_value b in
                    Return (result, next_value + 1)
                  else Return (result, next_value))
               (result, next_value) in
           (* Second pass: move all elements == pivot after the < pivot section *)
           let* (result, next_value) :=
             for_loop (S := list Z * Z) (range next_value (len result))
               (fun i '(result, next_value) =>
                  let* x := getitem result i in
                  if x =? pivot then
                    let* a := getitem result next_value in
                    let* b := getitem result i in
                    let* result := setitem result i a in
                    let* result := setitem result next_value b in
                    Return (result, next_value + 1)
                  else Return (result, next_value))
               (result, next_value) in
           Return result)
  end.

End algorithms_sort.

(** ** Reasoning rules for the primitives and the loops *)

Lemma py_index_in_range {A : Type} (l : list A) (i : Z) :
  0 <= i < Z.of_nat (length l) -> py_index l i = Some (Z.to_nat i).
Proof.
  intros Hi. unfold py_index.
  destruct (Z.ltb_spec i 0); [lia|].
  destruct (Z.leb_spec 0 i); [|lia].
  destruct (Z.ltb_spec i (Z.of_nat (length l))); [done|lia].
Qed.

Lemma setitem_in_range {A : Type} (l : list A) (i : Z) (x : A) :
  0 <= i < Z.of_nat (length l) ->
  setitem l i x = Return (<[Z.to_nat i := x]> l).
Proof. intros Hi. unfold setitem. by rewrite py_index_in_range. Qed.

Lemma getitem_in_range {A : Type} (l : list A) (i : Z) (x : A) :
  0 <= i -> l !! Z.to_nat i = Some x -> getitem l i = Return x.
Proof.
  intros Hi Hx. unfold getitem.
  rewrite py_index_in_range, Hx; [done|].
  apply lookup_lt_Some in Hx. lia.
Qed.

Lemma length_list_mul {A : Type} (x : A) (k : Z) :
  length (list_mul x k) = Z.to_nat k.
Proof. apply length_replicate. Qed.

Lemma lookup_list_mul {A : Type} (x : A) (k : Z) (i : nat) :
  (i < Z.to_nat k)%nat -> list_mul x k !! i = Some x.
Proof. intros Hi. by apply lookup_replicate_2. Qed.

Lemma range_nil (a b : Z) : b <= a -> range a b = [].
Proof. intros H. unfold range. by rewrite seqZ_nil by lia. Qed.

Lemma range_cons (a b : Z) : a < b -> range a b = a :: range (a + 1) b.
Proof.
  intros H. unfold range. rewrite seqZ_cons by lia.
  do 2 f_equal; lia.
Qed.

Lemma elem_of_range (a b x : Z) : x ∈ range a b <-> a <= x < b.
Proof. unfold range. rewrite elem_of_seqZ. lia. Qed.

Section loop_rules.
Context {S : Type}.

(** A [for] loop over [range(a, b)] whose body keeps an invariant indexed by
    the loop variable returns, in a state where the invariant holds at [b]. *)
Lemma for_loop_range (I : Z -> S -> Prop) (body : Z -> S -> outcome S)
    (a b : Z) (s : S) :
  a <= b ->
  I a s ->
  (forall i s, a <= i < b -> I i s ->
     exists s', body i s = Return s' /\ I (i + 1) s') ->
  exists s', for_loop (range a b) body s = Return s' /\ I b s'.
Proof.
  intros Hab Hs Hbody.
  remember (Z.to_nat (b - a)) as k eqn:Hk.
  revert a s Hab Hs Hbody Hk.
  induction k as [|k IH]; intros a s Hab Hs Hbody Hk.
  - assert (a = b) as -> by lia.
    rewrite range_nil by lia. simpl. eauto.
  - rewrite range_cons by lia. simpl.
    destruct (Hbody a s) as (s1 & -> & Hs1); [lia|done|]. simpl.
    apply IH; [lia|done| |lia].
    intros i s2 Hi. apply Hbody. lia.
Qed.

(** Total correctness of [while]: an invariant kept by the body and a
    variant that the body decreases give a final state, when the budget
    covers the variant. *)
Lemma while_loop_total (I : S -> Prop) (m : S -> nat)
    (cond : S -> outcome bool) (body : S -> outcome S) :
  (forall s, I s ->
     exists c, cond s = Return c /\
       (c = true -> exists s', body s = Return s' /\ I s' /\ (m s' < m s)%nat)) ->
  forall (fuel : nat) (s : S),
    I s -> (m s <= fuel)%nat ->
    exists s', while_loop fuel cond body s = Return s' /\ I s' /\
               cond s' = Return false.
Proof.
  intros Hstep fuel. induction fuel as [|fuel IH]; intros s Hs Hm.
  - destruct (Hstep s Hs) as (c & Hc & Hb). simpl. rewrite Hc. simpl.
    destruct c; [|eauto].
    destruct Hb as (s' & _ & _ & Hlt); [done|lia].
  - destruct (Hstep s Hs) as (c & Hc & Hb). simpl. rewrite Hc. simpl.
    destruct c; [|eauto].
    destruct Hb as (s' & -> & Hs' & Hlt); [done|]. simpl.
    apply IH; [done|lia].
Qed.

(** A larger budget, and a body that returns at least where the other
    does, never change a returned state. *)
Lemma while_loop_mono (cond : S -> outcome bool) (body1 body2 : S -> outcome S) :
  (forall s r, body1 s = Return r -> body2 s = Return r) ->
  forall (f1 f2 : nat) (s r : S),
    (f1 <= f2)%nat ->
    while_loop f1 cond body1 s = Return r ->
    while_loop f2 cond body2 s = Return r.
Proof.
  intros Hbody f1. induction f1 as [|f1 IH]; intros f2 s r Hle Hrun.
  - destruct f2; simpl in *; destruct (cond s) as [[]| |]; simpl in *; done.
  - destruct f2 as [|f2]; [lia|]. simpl in *.
    destruct (cond s) as [[]| |]; simpl in *; try done.
    destruct (body1 s) as [s1| |] eqn:Hb; simpl in *; try done.
    rewrite (Hbody _ _ Hb). simpl. apply (IH f2); [lia|done].
Qed.
End loop_rules.

(** ** The sieve *)

Lemma unsieved_prime (i n k : Z) :
  2 <= i -> n < i * i -> 0 <= k <= n -> unsieved i k <-> Z.prime k.
Proof.
  intros Hi Hn Hk. split.
  - intros [Hk2 Hd]. split; [lia|].
    intros d Hdk [q Hq].
    destruct (Z_lt_le_dec d i) as [Hlt|Hge].
    + assert (d = k) by (apply Hd; [lia|by exists q]). lia.
    + assert (1 < q) by nia.
      assert (q < i) by nia.
      assert (q = k) by (apply Hd; [lia|exists d; lia]). nia.
  - intros Hp. pose proof (Z.prime_ge_2 _ Hp). split; [done|].
    intros d Hd Hdiv.
    destruct (Z.divide_prime_r _ _ Hp Hdiv) as [?|[?|[?|?]]]; lia.
Qed.

Lemma unsieved_marked (i k : Z) :
  2 <= i -> unsieved i k /\ ~ ((i | k) /\ i * i <= k) <-> unsieved (i + 1) k.
Proof.
  intros Hi. split.
  - intros [[Hk Hd] Hnot]. split; [done|].
    intros d Hdi Hdiv.
    destruct (Z.eq_dec d i) as [->|Hne]; [|apply Hd; [lia|done]].
    destruct Hdiv as [q Hq].
    destruct (Z.eq_dec q 1) as [->|Hq1]; [lia|].
    assert (2 <= q) by nia.
    destruct (Z_lt_le_dec q i) as [Hlt|Hge].
    + assert (q = k) by (apply Hd; [lia|exists i; lia]). nia.
    + exfalso. apply Hnot. split; [by exists q|nia].
  - intros [Hk Hd]. split.
    + split; [done|]. intros d Hdi. apply Hd. lia.
    + intros [Hdiv Hsq]. assert (i = k) by (apply Hd; [lia|done]). nia.
Qed.

Lemma unsieved_skipped (i k : Z) :
  2 <= i -> ~ unsieved i i -> unsieved i k <-> unsieved (i + 1) k.
Proof.
  intros Hi Hii. split.
  - intros [Hk Hd]. split; [done|].
    intros d Hdi Hdiv.
    destruct (Z.eq_dec d i) as [->|Hne]; [|apply Hd; [lia|done]].
    destruct (Z.eq_dec i k) as [|Hik]; [done|].
    exfalso. apply Hii. split; [done|].
    intros d Hd2 Hdi2.
    assert (d = k) as -> by (apply Hd; [lia|by eapply Z.divide_trans]).
    apply Z.divide_antisym_nonneg; [lia|lia|done|done].
  - intros [Hk Hd]. split; [done|]. intros d Hdi. apply Hd. lia.
Qed.

Lemma struck_next (i j k : Z) :
  2 <= i -> (i | j) -> k <> j -> struck i (j + i) k <-> struck i j k.
Proof.
  intros Hi [a Ha] Hkj. unfold struck. split; intros [[b Hb] Hr].
  - split; [by exists b|].
    assert (b < a + 1) by nia.
    assert (b <> a) by (intros ->; lia). nia.
  - split; [by exists b|]. lia.
Qed.

(** The initialisation loop marks [2..n] as candidates. *)
Lemma sieve_init (n : Z) :
  2 <= n ->
  exists t,
    for_loop (range 2 (n + 1)) (fun i is_prime => setitem is_prime i true)
      (list_mul false (n + 1)) = Return t /\
    table_of n (unsieved 2) t.
Proof.
  intros Hn.
  destruct (for_loop_range
    (fun i t => table_of n (fun k => 2 <= k < i) t)
    (fun i is_prime => setitem is_prime i true) 2 (n + 1)
    (list_mul false (n + 1))) as (t & Ht & [Hlen Htab]); [lia| | |].
  - split; [rewrite length_list_mul; lia|].
    intros k Hk. exists false. split; [|split; [done|lia]].
    apply lookup_list_mul. lia.
  - intros i t Hi [Hlen Htab].
    rewrite setitem_in_range by lia. eexists; split; [done|].
    split; [by rewrite length_insert|].
    intros k Hk. destruct (Z.eq_dec k i) as [->|Hne].
    + exists true. split; [|split; [lia|done]].
      apply list_lookup_insert_eq. lia.
    + destruct (Htab k Hk) as (b & Hb & Hiff). exists b.
      split; [|rewrite Hiff; lia].
      rewrite list_lookup_insert_ne by lia. done.
  - exists t. split; [done|]. split; [done|].
    intros k Hk. destruct (Htab k Hk) as (b & Hb & Hiff). exists b.
    split; [done|]. rewrite Hiff. unfold unsieved. split; [|lia].
    intros ?. split; [lia|]. intros d ?. lia.
Qed.

(** The marking loop for one [i] strikes the multiples of [i] from [i*i]. *)
Lemma sieve_mark (fuel : nat) (n i : Z) (t : list bool) :
  enough fuel n -> 2 <= i -> i * i <= n -> table_of n (unsieved i) t ->
  exists j t',
    while_loop (S := Z * list bool) fuel
      (fun '(j, _) => Return (j <=? n))
      (fun '(j, is_prime) =>
         let* is_prime := setitem is_prime j false in
         Return (j + i, is_prime))
      (i * i, t) = Return (j, t') /\
    table_of n (unsieved (i + 1)) t'.
Proof.
  intros Hfuel Hi Hsq Ht.
  destruct (while_loop_total (S := Z * list bool)
    (fun '(j, t') => (i | j) /\ i * i <= j /\
       table_of n (fun k => unsieved i k /\ ~ struck i j k) t')
    (fun '(j, _) => Z.to_nat (n + 1 - j))
    (fun '(j, _) => Return (j <=? n))
    (fun '(j, is_prime) =>
       let* is_prime := setitem is_prime j false in
       Return (j + i, is_prime))) with (fuel := fuel) (s := (i * i, t))
    as ([j t'] & Hrun & (Hdiv & Hj & Hlen & Htab) & Hexit).
  - intros [j t'] (Hdiv & Hj & Hlen & Htab). eexists; split; [done|].
    intros Hc%Z.leb_le.
    rewrite setitem_in_range by lia. simpl. eexists; split; [done|].
    split; [|lia].
    split; [by apply Z.divide_add_r; [|apply Z.divide_refl]|].
    split; [lia|]. split; [by rewrite length_insert|].
    intros k Hk. destruct (Z.eq_dec k j) as [->|Hne].
    + exists false. split; [apply list_lookup_insert_eq; lia|].
      split; [done|]. intros [_ Hns]. exfalso. apply Hns.
      split; [done|lia].
    + destruct (Htab k Hk) as (b & Hb & Hiff). exists b.
      split; [by rewrite list_lookup_insert_ne by lia|].
      rewrite Hiff, struck_next by done. done.
  - split; [by exists i|]. split; [lia|].
    destruct Ht as [Hlen Htab]. split; [done|].
    intros k Hk. destruct (Htab k Hk) as (b & Hb & Hiff). exists b.
    split; [done|]. rewrite Hiff. unfold struck. split; [|tauto].
    intros ?. split; [done|]. lia.
  - unfold enough in Hfuel. lia.
  - exists j, t'. split; [done|]. split; [done|].
    injection Hexit as Hexit. apply Z.leb_gt in Hexit.
    intros k Hk. destruct (Htab k Hk) as (b & Hb & Hiff). exists b.
    split; [done|]. rewrite Hiff, <- unsieved_marked by done.
    unfold struck. split; intros [? Hns]; (split; [done|]);
      intros [? ?]; apply Hns; (split; [done|lia]).
Qed.

(** With a budget that covers [n], the sieve of [n >= 2] is the table of
    the primes up to [n]. *)
Lemma generate_sieve_primes (fuel : nat) (n : Z) :
  enough fuel n -> 2 <= n ->
  exists t, generate_sieve fuel n = Return t /\ table_of n Z.prime t.
Proof.
  intros Hfuel Hn. unfold generate_sieve.
  destruct (Z.ltb_spec n 0); [lia|].
  destruct (Z.ltb_spec n 2); [lia|].
  destruct (sieve_init n Hn) as (t0 & -> & Ht0). simpl.
  match goal with |- context [while_loop fuel ?c ?b _] =>
    destruct (while_loop_total (S := Z * list bool)
      (fun '(i, t) => 2 <= i /\ table_of n (unsieved i) t)
      (fun '(i, _) => Z.to_nat (n - i)) c b) with (fuel := fuel) (s := (2, t0))
      as ([i t] & -> & (Hi & Ht) & Hexit)
  end.
  - intros [i t] (Hi & Ht). eexists; split; [done|].
    intros Hc%Z.leb_le.
    destruct Ht as [Hlen Htab].
    destruct (Htab i) as (b & Hb & Hiff); [nia|].
    rewrite (getitem_in_range _ _ b) by (done || lia). simpl.
    destruct b.
    + destruct (sieve_mark fuel n i t) as (j & t' & -> & Ht'); try done.
      simpl. eexists; split; [done|]. split; [split; [lia|done]|nia].
    + simpl. eexists; split; [done|]. split; [|nia].
      split; [lia|]. split; [done|].
      intros k Hk. destruct (Htab k Hk) as (b & Hbk & Hiffk). exists b.
      split; [done|]. rewrite Hiffk. apply unsieved_skipped; [done|].
      intros Hu. apply Hiff in Hu. done.
  - split; [lia|done].
  - unfold enough in Hfuel. lia.
  - simpl. exists t. split; [done|].
    injection Hexit as Hexit. apply Z.leb_gt in Hexit.
    destruct Ht as [Hlen Htab]. split; [done|].
    intros k Hk. destruct (Htab k Hk) as (b & Hb & Hiff). exists b.
    split; [done|]. rewrite Hiff. by apply (unsieved_prime i n).
Qed.

Lemma generate_sieve_table (fuel : nat) (n : Z) :
  enough fuel n -> 0 <= n ->
  exists t, generate_sieve fuel n = Return t /\ table_of n Z.prime t.
Proof.
  intros Hfuel Hn.
  destruct (Z_lt_le_dec n 2) as [Hlt|Hge]; [|by apply generate_sieve_primes].
  unfold generate_sieve.
  destruct (Z.ltb_spec n 0); [lia|].
  destruct (Z.ltb_spec n 2); [|lia].
  eexists; split; [done|]. split; [rewrite length_list_mul; lia|].
  intros k Hk. exists false. split; [apply lookup_list_mul; lia|].
  split; [done|]. intros Hp%Z.prime_ge_2. lia.
Qed.

Lemma table_getitem (n : Z) (P : Z -> Prop) (t : list bool) (k : Z) :
  table_of n P t -> 0 <= k <= n ->
  exists b, getitem t k = Return b /\ (b = true <-> P k).
Proof.
  intros [_ Htab] Hk. destruct (Htab k Hk) as (b & Hb & Hiff).
  exists b. split; [|done]. apply getitem_in_range; [lia|done].
Qed.

(** Budgets only matter until the sieve returns. *)
Lemma generate_sieve_mono (f1 f2 : nat) (n : Z) (t : list bool) :
  (f1 <= f2)%nat ->
  generate_sieve f1 n = Return t -> generate_sieve f2 n = Return t.
Proof.
  intros Hle. unfold generate_sieve.
  destruct (n <? 0); [done|]. destruct (n <? 2); [done|].
  destruct (for_loop _ _ _) as [t0| |]; simpl; try done.
  match goal with |- context [while_loop f1 ?c ?b _] =>
    destruct (while_loop f1 c b (2, t0)) as [[i t1]| |] eqn:Hrun; simpl; try done
  end.
  intros [= ->].
  match goal with |- context [while_loop f2 ?c ?b _] =>
    assert (while_loop f2 c b (2, t0) = Return (i, t)) as ->; [|done]
  end.
  eapply while_loop_mono; [|exact Hle|exact Hrun].
  clear -Hle. intros [i t] r. simpl.
  destruct (getitem t i) as [[]| |]; simpl; try done.
  match goal with |- context [while_loop f1 ?c ?b ?s] =>
    destruct (while_loop f1 c b s) as [[j t1]| |] eqn:Hrun; simpl; try done
  end.
  intros [= <-].
  match goal with |- context [while_loop f2 ?c ?b ?s] =>
    assert (while_loop f2 c b s = Return (j, t1)) as ->; [|done]
  end.
  eapply while_loop_mono; [|exact Hle|exact Hrun]. done.
Qed.

Lemma generate_sieve_det (f1 f2 : nat) (n : Z) (t1 t2 : list bool) :
  generate_sieve f1 n = Return t1 -> generate_sieve f2 n = Return t2 -> t1 = t2.
Proof.
  intros H1 H2.
  apply (generate_sieve_mono _ (f1 `max` f2)%nat) in H1; [|lia].
  apply (generate_sieve_mono _ (f1 `max` f2)%nat) in H2; [|lia].
  congruence.
Qed.

(** ** Sums and enumerations read off the sieve *)

Lemma primes_below_2 : primes_below 2 [].
Proof.
  split; [constructor|]. intros p. split; [by intros ?%elem_of_nil|].
  intros [Hp%Z.prime_ge_2 ?]. lia.
Qed.

Lemma primes_below_snoc (i : Z) (l : list Z) :
  primes_below i l -> Z.prime i -> primes_below (i + 1) (l ++ [i]).
Proof.
  intros [Hs Hl] Hi. split.
  - apply StronglySorted_app_2; [|done|repeat constructor].
    intros x y Hx ->%list_elem_of_singleton. apply Hl in Hx. lia.
  - intros p. rewrite elem_of_app, list_elem_of_singleton, Hl.
    split; [intros [[? ?]| ->]; (split; [done|lia])|].
    intros [Hp ?]. destruct (Z.eq_dec p i); [by right|left].
    split; [done|lia].
Qed.

Lemma primes_below_skip (i : Z) (l : list Z) :
  primes_below i l -> ~ Z.prime i -> primes_below (i + 1) l.
Proof.
  intros [Hs Hl] Hi. split; [done|]. intros p. rewrite Hl.
  split; intros [Hp ?]; (split; [done|]); [lia|].
  destruct (Z.eq_dec p i) as [->|]; [done|lia].
Qed.

Lemma primes_below_NoDup (b : Z) (l : list Z) : primes_below b l -> NoDup l.
Proof.
  intros [Hs _]. induction Hs as [|x l Hs IH Hx]; [constructor|].
  constructor; [|done]. intros Hin.
  rewrite Forall_forall in Hx. specialize (Hx x Hin). lia.
Qed.

Lemma sum_app (l k : list Z) : sum (l ++ k) = sum l + sum k.
Proof. unfold sum. induction l as [|x l IH]; simpl; lia. Qed.

Lemma product_app (l k : list Z) : product (l ++ k) = product l * product k.
Proof. unfold product. induction l as [|x l IH]; simpl; lia. Qed.

Lemma sum_Permutation (l k : list Z) : l ≡ₚ k -> sum l = sum k.
Proof. unfold sum. induction 1; simpl; lia. Qed.

(** The enumeration loop of [get_all_primes_up_to]. *)
Lemma collect_loop (n b : Z) (t : list bool) :
  table_of n Z.prime t -> 2 <= b <= n + 1 ->
  exists l,
    for_loop (range 2 b)
      (fun i primes =>
         let* p := getitem t i in
         if p then Return (primes ++ [i]) else Return primes) [] = Return l /\
    primes_below b l.
Proof.
  intros Ht Hb.
  apply (for_loop_range primes_below); [lia|apply primes_below_2|].
  intros i l Hi Hl.
  destruct (table_getitem n _ t i Ht) as (p & -> & Hp); [lia|]. simpl.
  destruct p; (eexists; split; [done|]).
  - apply primes_below_snoc; [done|]. by apply Hp.
  - apply primes_below_skip; [done|]. intros ?%Hp. done.
Qed.

(** The summation loop shared by [sum_primes] and [sum_primes_using_sieve]. *)
Lemma sum_loop (n b : Z) (t : list bool) :
  table_of n Z.prime t -> 2 <= b <= n + 1 ->
  exists l,
    for_loop (range 2 b)
      (fun i total =>
         let* p := getitem t i in
         if p then Return (total + i) else Return total) 0 = Return (sum l) /\
    primes_below b l.
Proof.
  intros Ht Hb.
  destruct (for_loop_range
    (fun i total => exists l, total = sum l /\ primes_below i l)
    (fun i total =>
       let* p := getitem t i in
       if p then Return (total + i) else Return total) 2 b 0)
    as (v & Hrun & l & -> & Hl); [lia| | |by exists l].
  - exists []. split; [done|apply primes_below_2].
  - intros i total Hi (l & -> & Hl).
    destruct (table_getitem n _ t i Ht) as (p & -> & Hp); [lia|]. simpl.
    destruct p; (eexists; split; [done|]).
    + exists (l ++ [i]). split; [rewrite sum_app; unfold sum; simpl; lia|].
      apply primes_below_snoc; [done|]. by apply Hp.
    + exists l. split; [done|].
      apply primes_below_skip; [done|]. intros ?%Hp. done.
Qed.

(** ** Trial division *)

Lemma no_small_divisor_prime (i m : Z) :
  2 <= i -> 1 <= m -> no_small_divisor i m -> (i | m) -> Z.prime i.
Proof.
  intros Hi Hm Hno Hdiv. split; [lia|].
  intros d Hd Hdi. apply (Hno d); [lia|]. by eapply Z.divide_trans.
Qed.

Lemma no_small_divisor_remainder (i m : Z) :
  2 <= i -> 1 < m -> m < i * i -> no_small_divisor i m -> Z.prime m /\ i <= m.
Proof.
  intros Hi Hm Hsq Hno. split.
  - split; [done|]. intros d Hd [q Hq].
    destruct (Z_lt_le_dec d i) as [Hlt|Hge].
    + apply (Hno d); [lia|by exists q].
    + assert (1 < q) by nia. assert (q < i) by nia.
      apply (Hno q); [lia|exists d; lia].
  - destruct (Z_lt_le_dec m i) as [Hlt|]; [|done].
    exfalso. apply (Hno m); [lia|apply Z.divide_refl].
Qed.

Lemma factoring_weaken (n c i m : Z) (fs : list Z) :
  factoring n (c - 1) i m fs -> factoring n c i m fs.
Proof.
  intros (? & ? & ? & ? & Hc & ?). repeat split; try done.
  eapply Forall_impl; [exact Hc|]. simpl. lia.
Qed.

Lemma factoring_divide (n i m : Z) (fs : list Z) :
  2 <= i -> factoring n i i m fs -> m mod i = 0 ->
  factoring n i i (m / i) (fs ++ [i]) /\ m / i < m.
Proof.
  intros Hi (Hm & Hprod & Hps & Hs & Hc & Hno) Hmod.
  apply Z.mod_divide in Hmod; [|lia].
  pose proof Hmod as [q Hq]. rewrite Hq, Z.div_mul by lia.
  assert (1 <= q) by nia.
  split; [|nia]. repeat split.
  - done.
  - rewrite product_app. unfold product at 2. simpl. lia.
  - apply Forall_app_2; [done|]. repeat constructor; [lia|].
    intros d Hd Hdi. apply (Hno d); [lia|]. by eapply Z.divide_trans.
  - apply StronglySorted_app_2; [|done|repeat constructor].
    intros x y Hx ->%list_elem_of_singleton.
    rewrite Forall_forall in Hc. by apply Hc.
  - apply Forall_app_2; [done|]. repeat constructor. lia.
  - intros d Hd [a Ha]. apply (Hno d); [done|]. exists (a * i). lia.
Qed.

Lemma factoring_next (n i m : Z) (fs : list Z) :
  2 <= i -> factoring n i i m fs -> m mod i <> 0 ->
  factoring n (i + 1 - 1) (i + 1) m fs.
Proof.
  intros Hi (Hm & Hprod & Hps & Hs & Hc & Hno) Hmod.
  repeat split; try done.
  - eapply Forall_impl; [exact Hc|]. simpl. lia.
  - intros d Hd Hdiv. destruct (Z.eq_dec d i) as [->|].
    + apply Hmod. apply Z.mod_divide; [lia|done].
    + apply (Hno d); [lia|done].
Qed.

(** The inner loop divides [i] out of the remaining value. *)
Lemma divide_out (fuel : nat) (n i m : Z) (fs : list Z) :
  enough fuel m -> 2 <= i -> factoring n (i - 1) i m fs ->
  exists m' fs',
    while_loop (S := Z * list Z) fuel
      (fun '(n, _) => let* r := py_mod n i in Return (r =? 0))
      (fun '(n, factors) =>
         let factors := factors ++ [i] in
         let* n := py_floordiv n i in
         Return (n, factors))
      (m, fs) = Return (m', fs') /\
    factoring n (i + 1 - 1) (i + 1) m' fs' /\ m' <= m.
Proof.
  intros Hfuel Hi Hinv%factoring_weaken.
  destruct (while_loop_total (S := Z * list Z)
    (fun '(m', fs') => factoring n i i m' fs' /\ m' <= m)
    (fun '(m', _) => Z.to_nat m')
    (fun '(n, _) => let* r := py_mod n i in Return (r =? 0))
    (fun '(n, factors) =>
       let factors := factors ++ [i] in
       let* n := py_floordiv n i in
       Return (n, factors))) with (fuel := fuel) (s := (m, fs))
    as ([m' fs'] & Hrun & (Hinv' & Hle) & Hexit).
  - intros [m' fs'] [Hinv' Hle]. unfold py_mod, py_floordiv.
    destruct (Z.eqb_spec i 0) as [|_]; [lia|]. simpl.
    eexists; split; [done|]. intros Hc%Z.eqb_eq.
    destruct (factoring_divide n i m' fs') as [Hdiv Hlt]; try done.
    eexists; split; [done|].
    destruct Hdiv as [? ?]. split; [|lia]. split; [done|lia].
  - split; [done|lia].
  - unfold enough in Hfuel. lia.
  - exists m', fs'. split; [done|]. split; [|done].
    unfold py_mod in Hexit. destruct (Z.eqb_spec i 0) as [|_]; [lia|].
    simpl in Hexit. injection Hexit as Hexit. apply Z.eqb_neq in Hexit.
    by apply factoring_next.
Qed.

(** With a budget that covers [n], trial division of [n >= 1] returns the
    prime factors of [n] in ascending order. *)
Lemma prime_factors_factoring (fuel : nat) (n : Z) :
  enough fuel n -> 1 <= n ->
  exists fs,
    prime_factors fuel n = Return fs /\
    Forall Z.prime fs /\ StronglySorted Z.le fs /\ product fs = n.
Proof.
  intros Hfuel Hn. unfold prime_factors.
  destruct (Z.leb_spec n 0); [lia|].
  match goal with |- context [while_loop fuel ?c ?b _] =>
    destruct (while_loop_total (S := Z * Z * list Z)
      (fun '(i, m, fs) => 2 <= i /\ m <= n /\ factoring n (i - 1) i m fs)
      (fun '(i, m, _) => Z.to_nat (m - i)) c b)
      with (fuel := fuel) (s := (2, n, @nil Z))
      as ([[i m] fs] & -> & (Hi & Hle & Hinv) & Hexit)
  end.
  - intros [[i m] fs] (Hi & Hle & Hinv). eexists; split; [done|].
    intros Hc%Z.leb_le.
    destruct (divide_out fuel n i m fs) as (m' & fs' & Hrun & Hinv' & Hle');
      [unfold enough in *; lia|done|done|].
    cbv zeta in Hrun. rewrite Hrun. simpl. eexists; split; [done|].
    split; [|nia]. split; [lia|]. split; [lia|done].
  - split; [lia|]. split; [lia|]. repeat split; try done; try constructor.
    + unfold product. simpl. lia.
    + intros d Hd. lia.
  - unfold enough in Hfuel. lia.
  - simpl. eexists; split; [done|].
    injection Hexit as Hexit. apply Z.leb_gt in Hexit.
    destruct Hinv as (Hm & Hprod & Hps & Hs & Hc & Hno).
    destruct (Z.ltb_spec 1 m) as [Hm1|Hm1].
    + destruct (no_small_divisor_remainder i m) as [Hp Him]; try done.
      split; [apply Forall_app_2; [done|by apply Forall_singleton]|].
      split.
      * apply StronglySorted_app_2; [|done|repeat constructor].
        intros x y Hx ->%list_elem_of_singleton.
        rewrite Forall_forall in Hc. specialize (Hc x Hx). simpl in Hc. lia.
      * rewrite product_app. unfold product at 2. simpl. lia.
    + split; [done|]. split; [done|]. assert (m = 1) as -> by lia. lia.
Qed.

Lemma prime_factors_mono (f1 f2 : nat) (n : Z) (fs : list Z) :
  (f1 <= f2)%nat ->
  prime_factors f1 n = Return fs -> prime_factors f2 n = Return fs.
Proof.
  intros Hle. unfold prime_factors.
  destruct (n <=? 0); [done|].
  match goal with |- context [while_loop f1 ?c ?b ?s] =>
    destruct (while_loop f1 c b s) as [[[i m] fs1]| |] eqn:Hrun; simpl; try done
  end.
  intros [= <-].
  match goal with |- context [while_loop f2 ?c ?b ?s] =>
    assert (while_loop f2 c b s = Return (i, m, fs1)) as ->; [|done]
  end.
  eapply while_loop_mono; [|exact Hle|exact Hrun].
  clear -Hle. intros [[i m] fs] r. simpl.
  match goal with |- context [while_loop f1 ?c ?b ?s] =>
    destruct (while_loop f1 c b s) as [[m1 fs1]| |] eqn:Hrun; simpl; try done
  end.
  intros [= <-].
  match goal with |- context [while_loop f2 ?c ?b ?s] =>
    assert (while_loop f2 c b s = Return (m1, fs1)) as ->; [|done]
  end.
  eapply while_loop_mono; [|exact Hle|exact Hrun]. done.
Qed.


(** ** The scenarios of the documentation *)

Example generate_sieve_10 :
  generate_sieve 10 10 =
  Return [false; false; true; true; false; true; false; true; false; false; false].
Proof. reflexivity. Qed.

Example is_prime_17 : is_prime 17 17 = Return true.
Proof. reflexivity. Qed.

Example is_prime_minus_5 : is_prime 0 (-5) = Return false.
Proof. reflexivity. Qed.

Example sum_primes_10 : sum_primes 10 10 = Return 17.
Proof. reflexivity. Qed.

Example get_all_primes_up_to_100 :
  get_all_primes_up_to 100 100 =
  Return [2; 3; 5; 7; 11; 13; 17; 19; 23; 29; 31; 37; 41; 43; 47; 53; 59; 61;
          67; 71; 73; 79; 83; 89; 97].
Proof. vm_compute. reflexivity. Qed.

Example prime_factors_12 : prime_factors 12 12 = Return [2; 2; 3].
Proof. reflexivity. Qed.

Example prime_factors_30 : prime_factors 30 30 = Return [2; 3; 5].
Proof. reflexivity. Qed.

Example generate_sieve_minus_1 :
  generate_sieve 7 (-1) = Raise (ValueError "Limit cannot be negative: -1").
Proof. reflexivity. Qed.

(** ** The contract *)

(** C1. For every [n >= 0], [generate_sieve n] returns a table of length
    exactly [n + 1] whose flag at position [i] is true if and only if [i] is
    prime, for all [0 <= i <= n]; positions 0 and 1, when present, are
    false. *)
Theorem generate_sieve_correct (fuel : nat) (n : Z) :
  0 <= n -> enough fuel n ->
  exists t,
    generate_sieve fuel n = Return t /\
    Z.of_nat (length t) = n + 1 /\
    (forall i, 0 <= i <= n ->
       exists b, getitem t i = Return b /\ t !! Z.to_nat i = Some b /\
                 (b = true <-> Z.prime i)) /\
    (forall i, 0 <= i <= n -> i < 2 -> t !! Z.to_nat i = Some false).
Proof.
  intros Hn Hfuel.
  destruct (generate_sieve_table fuel n) as (t & Hrun & Hlen & Htab); try done.
  exists t. split; [done|]. split; [done|]. split.
  - intros i Hi. destruct (Htab i Hi) as (b & Hb & Hiff). exists b.
    split; [|done]. apply getitem_in_range; [lia|done].
  - intros i Hi Hi2. destruct (Htab i Hi) as (b & Hb & Hiff).
    destruct b; [|done]. destruct Hiff as [Hp _].
    specialize (Hp eq_refl). apply Z.prime_ge_2 in Hp. lia.
Qed.

Lemma generate_sieve_correct_witness :
  0 <= 10 /\ enough 10 10 /\
  exists t,
    generate_sieve 10 10 = Return t /\
    Z.of_nat (length t) = 10 + 1 /\
    (forall i, 0 <= i <= 10 ->
       exists b, getitem t i = Return b /\ t !! Z.to_nat i = Some b /\
                 (b = true <-> Z.prime i)) /\
    (forall i, 0 <= i <= 10 -> i < 2 -> t !! Z.to_nat i = Some false).
Proof.
  split; [lia|]. split; [unfold enough; lia|].
  apply (generate_sieve_correct 10 10); [lia|unfold enough; lia].
Defined.

(** C2. For every [n > 0], [prime_factors n] returns a sequence of primes in
    ascending order whose product is [n]; [prime_factors 1] returns the empty
    sequence. *)
Theorem prime_factors_correct (fuel : nat) (n : Z) :
  (0 < n -> enough fuel n ->
   exists fs,
     prime_factors fuel n = Return fs /\
     Forall Z.prime fs /\ StronglySorted Z.le fs /\ product fs = n) /\
  prime_factors fuel 1 = Return [].
Proof.
  split.
  - intros Hn Hfuel. apply prime_factors_factoring; [done|lia].
  - by destruct fuel.
Qed.

Lemma prime_factors_correct_witness :
  0 < 360 /\ enough 360 360 /\
  exists fs,
    prime_factors 360 360 = Return fs /\
    Forall Z.prime fs /\ StronglySorted Z.le fs /\ product fs = 360.
Proof.
  split; [lia|]. split; [unfold enough; lia|].
  apply (proj1 (prime_factors_correct 360 360)); [lia|unfold enough; lia].
Defined.

Lemma is_prime_small (fuel : nat) (n : Z) :
  n < 2 -> is_prime fuel n = Return false.
Proof. intros Hn. unfold is_prime. by destruct (Z.ltb_spec n 2); [|lia]. Qed.

Lemma is_prime_reflects (fuel : nat) (n : Z) :
  enough fuel n ->
  exists b, is_prime fuel n = Return b /\ (b = true <-> Z.prime n).
Proof.
  intros Hfuel. destruct (Z_lt_le_dec n 2) as [Hlt|Hge].
  - exists false. split; [by apply is_prime_small|].
    split; [done|]. intros Hp%Z.prime_ge_2. lia.
  - unfold is_prime. destruct (Z.ltb_spec n 2); [lia|].
    destruct (generate_sieve_table fuel n) as (t & -> & Ht); [done|lia|].
    simpl. apply (table_getitem n); [done|lia].
Qed.

(** C3. For every integer [n], [is_prime n] returns true if and only if [n]
    is prime; for every [n < 2] (negative, 0 or 1) it returns false and
    raises nothing. *)
Theorem is_prime_correct (fuel : nat) (n : Z) :
  (enough fuel n ->
   exists b, is_prime fuel n = Return b /\ (b = true <-> Z.prime n)) /\
  (n < 2 -> is_prime fuel n = Return false).
Proof. split; [apply is_prime_reflects|apply is_prime_small]. Qed.

Lemma is_prime_correct_witness :
  enough 17 17 /\
  (exists b, is_prime 17 17 = Return b /\ (b = true <-> Z.prime 17)) /\
  -5 < 2 /\ is_prime 0 (-5) = Return false.
Proof.
  split; [unfold enough; lia|]. split.
  - apply (proj1 (is_prime_correct 17 17)). unfold enough; lia.
  - split; [lia|]. apply (proj2 (is_prime_correct 0 (-5))). lia.
Defined.

(** The two summations run the same sieve and the same loop whenever either
    of them reaches the sieve. *)
Lemma sum_primes_same_run (fuel : nat) (n : Z) :
  0 <= n -> sum_primes fuel n = sum_primes_using_sieve fuel n.
Proof.
  intros Hn. unfold sum_primes, sum_primes_using_sieve.
  destruct (Z.ltb_spec n 0); [lia|].
  destruct (Z.leb_spec n 2), (Z.ltb_spec n 2); try done; try lia.
  assert (n = 2) as -> by lia. done.
Qed.

Lemma sum_primes_primes_below (fuel : nat) (n : Z) :
  0 <= n -> enough fuel n ->
  exists l, sum_primes fuel n = Return (sum l) /\ primes_below n l.
Proof.
  intros Hn Hfuel. unfold sum_primes.
  destruct (Z.ltb_spec n 0); [lia|].
  destruct (Z.leb_spec n 2) as [Hle|Hgt].
  - exists []. split; [done|]. split; [constructor|].
    intros p. split; [by intros ?%elem_of_nil|].
    intros [Hp%Z.prime_ge_2 ?]. lia.
  - destruct (generate_sieve_table fuel (n - 1)) as (t & -> & Ht);
      [unfold enough in *; lia|lia|].
    simpl. apply (sum_loop (n - 1)); [done|lia].
Qed.

(** C4. [sum_primes] and [sum_primes_using_sieve] return exactly the same
    value for every [n], and raise an error on exactly the same inputs: both
    return a value for [n >= 0] and both raise [ValueError] for [n < 0]. *)
Theorem sum_primes_using_sieve_agrees (fuel : nat) (n : Z) :
  (forall v, sum_primes fuel n = Return v <->
             sum_primes_using_sieve fuel n = Return v) /\
  ((exists e, sum_primes fuel n = Raise e) <->
   (exists e, sum_primes_using_sieve fuel n = Raise e)) /\
  (sum_primes fuel n = OutOfFuel <-> sum_primes_using_sieve fuel n = OutOfFuel) /\
  (0 <= n -> enough fuel n ->
   exists v, sum_primes fuel n = Return v /\
             sum_primes_using_sieve fuel n = Return v) /\
  (n < 0 ->
   exists m1 m2, sum_primes fuel n = Raise (ValueError m1) /\
                 sum_primes_using_sieve fuel n = Raise (ValueError m2)).
Proof.
  destruct (Z_lt_le_dec n 0) as [Hneg|Hpos].
  - assert (exists m1 m2, sum_primes fuel n = Raise (ValueError m1) /\
              sum_primes_using_sieve fuel n = Raise (ValueError m2))
      as (m1 & m2 & H1 & H2).
    { unfold sum_primes, sum_primes_using_sieve.
      destruct (Z.ltb_spec n 0); [eauto|lia]. }
    rewrite H1, H2. repeat split; try done; try lia; eauto.
  - rewrite <- (sum_primes_same_run fuel n Hpos).
    repeat split; try done; try lia.
    intros _ Hfuel.
    destruct (sum_primes_primes_below fuel n) as (l & -> & _); eauto.
Qed.

Lemma sum_primes_using_sieve_agrees_witness :
  0 <= 12 /\ enough 12 12 /\
  (exists v, sum_primes 12 12 = Return v /\
             sum_primes_using_sieve 12 12 = Return v) /\
  -3 < 0 /\
  (exists m1 m2, sum_primes 0 (-3) = Raise (ValueError m1) /\
                 sum_primes_using_sieve 0 (-3) = Raise (ValueError m2)).
Proof.
  split; [lia|]. split; [unfold enough; lia|]. split.
  - apply (sum_primes_using_sieve_agrees 12 12); [lia|unfold enough; lia].
  - split; [lia|]. apply (sum_primes_using_sieve_agrees 0 (-3)). lia.
Defined.

(** C5. For every [n >= 0], [sum_primes n] returns the sum of all primes
    strictly below [n]: the sum of any duplicate-free enumeration of them;
    for [0 <= n <= 2] it returns 0. *)
Theorem sum_primes_correct (fuel : nat) (n : Z) :
  (0 <= n -> enough fuel n ->
   exists v,
     sum_primes fuel n = Return v /\
     (exists l, NoDup l /\ (forall p, p ∈ l <-> Z.prime p /\ p < n) /\ sum l = v) /\
     (forall l, NoDup l -> (forall p, p ∈ l <-> Z.prime p /\ p < n) -> sum l = v)) /\
  (0 <= n <= 2 -> sum_primes fuel n = Return 0).
Proof.
  split.
  - intros Hn Hfuel.
    destruct (sum_primes_primes_below fuel n) as (l & -> & Hl); try done.
    pose proof (primes_below_NoDup _ _ Hl) as Hnd. destruct Hl as [_ Hl].
    exists (sum l). split; [done|]. split; [by exists l|].
    intros k Hk Hkl. apply sum_Permutation, NoDup_Permutation; try done.
    intros p. by rewrite Hl, Hkl.
  - intros Hn. unfold sum_primes.
    destruct (Z.ltb_spec n 0); [lia|]. by destruct (Z.leb_spec n 2); [|lia].
Qed.

Lemma sum_primes_correct_witness :
  0 <= 10 /\ enough 10 10 /\
  (exists v,
     sum_primes 10 10 = Return v /\
     (exists l, NoDup l /\ (forall p, p ∈ l <-> Z.prime p /\ p < 10) /\ sum l = v) /\
     (forall l, NoDup l -> (forall p, p ∈ l <-> Z.prime p /\ p < 10) -> sum l = v)) /\
  0 <= 2 <= 2 /\ sum_primes 0 2 = Return 0.
Proof.
  split; [lia|]. split; [unfold enough; lia|]. split.
  - apply (proj1 (sum_primes_correct 10 10)); [lia|unfold enough; lia].
  - split; [lia|]. apply (proj2 (sum_primes_correct 0 2)). lia.
Defined.

Lemma get_all_primes_up_to_primes_below (fuel : nat) (n : Z) :
  0 <= n -> enough fuel n ->
  exists l, get_all_primes_up_to fuel n = Return l /\ primes_below (n + 1) l.
Proof.
  intros Hn Hfuel. unfold get_all_primes_up_to.
  destruct (Z.ltb_spec n 0); [lia|].
  destruct (Z.ltb_spec n 2) as [Hlt|Hge].
  - exists []. split; [done|]. split; [constructor|].
    intros p. split; [by intros ?%elem_of_nil|].
    intros [Hp%Z.prime_ge_2 ?]. lia.
  - destruct (generate_sieve_table fuel n) as (t & -> & Ht); [done|lia|].
    simpl. apply (collect_loop n); [done|lia].
Qed.

(** C6, as the code has it.  For every [n >= 0], [get_all_primes_up_to n]
    returns all the primes of [2..n] in strictly ascending order, without
    duplicates; for every [n] with [0 <= n < 2] it returns the empty
    sequence. *)
Theorem get_all_primes_up_to_correct (fuel : nat) (n : Z) :
  (0 <= n -> enough fuel n ->
   exists l,
     get_all_primes_up_to fuel n = Return l /\
     StronglySorted Z.lt l /\ NoDup l /\
     (forall p, p ∈ l <-> Z.prime p /\ 2 <= p <= n)) /\
  (0 <= n < 2 -> get_all_primes_up_to fuel n = Return []).
Proof.
  split.
  - intros Hn Hfuel.
    destruct (get_all_primes_up_to_primes_below fuel n) as (l & -> & Hl);
      try done.
    pose proof (primes_below_NoDup _ _ Hl) as Hnd. destruct Hl as [Hs Hl].
    exists l. split; [done|]. split; [done|]. split; [done|].
    intros p. rewrite Hl. split.
    + intros [Hp ?]. pose proof (Z.prime_ge_2 _ Hp). split; [done|lia].
    + intros [Hp ?]. split; [done|lia].
  - intros Hn. unfold get_all_primes_up_to.
    destruct (Z.ltb_spec n 0); [lia|]. by destruct (Z.ltb_spec n 2); [|lia].
Qed.

Lemma get_all_primes_up_to_correct_witness :
  0 <= 30 /\ enough 30 30 /\
  (exists l,
     get_all_primes_up_to 30 30 = Return l /\
     StronglySorted Z.lt l /\ NoDup l /\
     (forall p, p ∈ l <-> Z.prime p /\ 2 <= p <= 30)) /\
  0 <= 1 < 2 /\ get_all_primes_up_to 0 1 = Return [].
Proof.
  split; [lia|]. split; [unfold enough; lia|]. split.
  - apply (proj1 (get_all_primes_up_to_correct 30 30)); [lia|unfold enough; lia].
  - split; [lia|]. apply (proj2 (get_all_primes_up_to_correct 0 1)). lia.
Defined.

(** C6 as stated fails below zero: [-1 < 2], yet [get_all_primes_up_to (-1)]
    raises [ValueError] whatever the budget, and returns no sequence. *)
Lemma get_all_primes_up_to_negative_raises :
  -1 < 2 /\
  forall fuel,
    get_all_primes_up_to fuel (-1) =
      Raise (ValueError "Upper bound cannot be negative: -1") /\
    get_all_primes_up_to fuel (-1) <> Return [].
Proof. split; [lia|]. intros fuel. split; [reflexivity|discriminate]. Qed.

(** C7. Below zero, [generate_sieve], [sum_primes], [sum_primes_using_sieve]
    and [get_all_primes_up_to] raise [ValueError], and so does
    [prime_factors] at or below zero.  The error names the argument and comes
    before any computation: it is the outcome under every budget, the empty
    one included, and no table or sequence comes with it. *)
Theorem invalid_arguments_raise (fuel : nat) (n : Z) :
  (n < 0 ->
   generate_sieve fuel n =
     Raise (ValueError (String.append "Limit cannot be negative: " (str n))) /\
   sum_primes fuel n =
     Raise (ValueError (String.append "Upper bound cannot be negative: " (str n))) /\
   sum_primes_using_sieve fuel n =
     Raise (ValueError (String.append "Upper limit cannot be negative: " (str n))) /\
   get_all_primes_up_to fuel n =
     Raise (ValueError (String.append "Upper bound cannot be negative: " (str n)))) /\
  (n <= 0 ->
   prime_factors fuel n =
     Raise (ValueError (String.append "Number must be positive: " (str n)))).
Proof.
  split.
  - intros Hn.
    unfold generate_sieve, sum_primes, sum_primes_using_sieve,
      get_all_primes_up_to.
    by destruct (Z.ltb_spec n 0); [|lia].
  - intros Hn. unfold prime_factors. by destruct (Z.leb_spec n 0); [|lia].
Qed.

Lemma invalid_arguments_raise_witness :
  -4 < 0 /\
  (generate_sieve 0 (-4) = Raise (ValueError "Limit cannot be negative: -4") /\
   sum_primes 0 (-4) = Raise (ValueError "Upper bound cannot be negative: -4") /\
   sum_primes_using_sieve 0 (-4) =
     Raise (ValueError "Upper limit cannot be negative: -4") /\
   get_all_primes_up_to 0 (-4) =
     Raise (ValueError "Upper bound cannot be negative: -4")) /\
  0 <= 0 /\
  prime_factors 0 0 = Raise (ValueError "Number must be positive: 0").
Proof.
  split; [lia|]. split.
  - apply (proj1 (invalid_arguments_raise 0 (-4))). lia.
  - split; [lia|]. apply (proj2 (invalid_arguments_raise 0 0)). lia.
Defined.

(** C8. For every [n >= 0], [is_prime n] returns true if and only if [n] is
    a member of [get_all_primes_up_to n], and [is_prime] returns true on
    every member of that sequence. *)
Theorem is_prime_iff_enumerated (fuel : nat) (n : Z) :
  0 <= n -> enough fuel n ->
  exists b l,
    is_prime fuel n = Return b /\
    get_all_primes_up_to fuel n = Return l /\
    (b = true <-> n ∈ l) /\
    (forall p, p ∈ l -> is_prime fuel p = Return true).
Proof.
  intros Hn Hfuel.
  destruct (is_prime_reflects fuel n Hfuel) as (b & Hb & Hiff).
  destruct (get_all_primes_up_to_primes_below fuel n) as (l & Hrun & _ & Hl);
    try done.
  exists b, l. split; [done|]. split; [done|]. split.
  - rewrite Hiff, Hl. split; [|tauto]. intros ?. split; [done|lia].
  - intros p [Hp Hpn]%Hl.
    destruct (is_prime_reflects fuel p) as (c & Hc & Hciff);
      [unfold enough in *; lia|].
    apply Hciff in Hp. by subst c.
Qed.

Lemma is_prime_iff_enumerated_witness :
  0 <= 20 /\ enough 20 20 /\
  exists b l,
    is_prime 20 20 = Return b /\
    get_all_primes_up_to 20 20 = Return l /\
    (b = true <-> 20 ∈ l) /\
    (forall p, p ∈ l -> is_prime 20 p = Return true).
Proof.
  split; [lia|]. split; [unfold enough; lia|].
  apply (is_prime_iff_enumerated 20 20); [lia|unfold enough; lia].
Defined.

(** C9. For every [n >= 0], two calls of [generate_sieve n] produce the same
    table, flag for flag: whatever budgets the two runs are given, each one
    that covers [n] returns, and any two runs that return agree. *)
Theorem generate_sieve_deterministic (f1 f2 : nat) (n : Z) :
  0 <= n ->
  (enough f1 n -> enough f2 n ->
   exists t, generate_sieve f1 n = Return t /\ generate_sieve f2 n = Return t) /\
  (forall t1 t2,
     generate_sieve f1 n = Return t1 -> generate_sieve f2 n = Return t2 ->
     t1 = t2).
Proof.
  intros Hn. split; [|apply generate_sieve_det].
  intros H1 H2.
  destruct (generate_sieve_table f1 n) as (t1 & Ht1 & _); try done.
  destruct (generate_sieve_table f2 n) as (t2 & Ht2 & _); try done.
  exists t1. split; [done|].
  by rewrite (generate_sieve_det _ _ _ _ _ Ht1 Ht2).
Qed.

Lemma generate_sieve_deterministic_witness :
  0 <= 10 /\ enough 10 10 /\ enough 25 10 /\
  exists t, generate_sieve 10 10 = Return t /\ generate_sieve 25 10 = Return t.
Proof.
  split; [lia|]. split; [unfold enough; lia|]. split; [unfold enough; lia|].
  apply (generate_sieve_deterministic 10 25 10); [lia|unfold enough; lia..].
Defined.

(** C10. [prime_factors n] terminates for every [n >= 1]: one sequence is
    returned under every budget that covers [n].  Each division of the inner
    loop strictly decreases the remaining value, which stays positive, and
    the outer loop runs only while [i * i] does not exceed it. *)
Theorem prime_factors_terminates (n : Z) :
  1 <= n ->
  (exists fs, forall fuel, enough fuel n -> prime_factors fuel n = Return fs) /\
  (forall i m, 2 <= i -> 1 <= m <= n -> py_mod m i = Return 0 ->
     exists m', py_floordiv m i = Return m' /\ 1 <= m' < m).
Proof.
  intros Hn. split.
  - destruct (prime_factors_factoring (Z.to_nat n) n) as (fs & Hrun & _);
      [unfold enough; lia|done|].
    exists fs. intros fuel Hfuel.
    apply (prime_factors_mono (Z.to_nat n)); [unfold enough in Hfuel; lia|done].
  - intros i m Hi Hm. unfold py_mod, py_floordiv.
    destruct (Z.eqb_spec i 0); [lia|]. intros [= Hmod].
    eexists; split; [done|].
    apply Z.mod_divide in Hmod as [q Hq]; [|lia].
    rewrite Hq, Z.div_mul by lia. nia.
Qed.

Lemma prime_factors_terminates_witness :
  1 <= 97 /\
  (exists fs, forall fuel, enough fuel 97 -> prime_factors fuel 97 = Return fs) /\
  (forall i m, 2 <= i -> 1 <= m <= 97 -> py_mod m i = Return 0 ->
     exists m', py_floordiv m i = Return m' /\ 1 <= m' < m).
Proof. split; [lia|]. apply (prime_factors_terminates 97). lia. Defined.

(** ** Further properties of the prime module *)

Lemma table_of_unique (n : Z) (P : Z -> Prop) (t1 t2 : list bool) :
  table_of n P t1 -> table_of n P t2 -> t1 = t2.
Proof.
  intros [Hlen1 Htab1] [Hlen2 Htab2]. apply list_eq. intros k.
  destruct (decide (k < length t1)%nat) as [Hk|Hk].
  - destruct (Htab1 (Z.of_nat k)) as (b1 & Hb1 & Hiff1); [lia|].
    destruct (Htab2 (Z.of_nat k)) as (b2 & Hb2 & Hiff2); [lia|].
    rewrite Nat2Z.id in Hb1, Hb2. rewrite Hb1, Hb2. f_equal.
    destruct b1, b2; try done.
    + symmetry. by apply Hiff2, Hiff1.
    + by apply Hiff1, Hiff2.
  - rewrite !lookup_ge_None_2; [done|lia..].
Qed.

Lemma table_of_take (n m : Z) (P : Z -> Prop) (t : list bool) :
  0 <= n <= m -> table_of m P t -> table_of n P (take (Z.to_nat (n + 1)) t).
Proof.
  intros Hnm [Hlen Htab]. split; [rewrite length_take; lia|].
  intros k Hk. destruct (Htab k) as (b & Hb & Hiff); [lia|]. exists b.
  split; [|done]. rewrite lookup_take_lt by lia. done.
Qed.

Lemma primes_below_unique (b : Z) (l1 l2 : list Z) :
  primes_below b l1 -> primes_below b l2 -> l1 = l2.
Proof.
  intros H1 H2.
  pose proof (primes_below_NoDup _ _ H1). pose proof (primes_below_NoDup _ _ H2).
  destruct H1 as [Hs1 Hl1], H2 as [Hs2 Hl2].
  apply (StronglySorted_unique_strong Z.lt); try done.
  - intros x y _ _ ? ?. lia.
  - apply NoDup_Permutation; try done. intros p. by rewrite Hl1, Hl2.
Qed.

Lemma primes_below_filter (b c : Z) (l : list Z) :
  b <= c -> primes_below c l -> primes_below b (filter (fun p => p < b) l).
Proof.
  intros Hbc [Hs Hl]. split.
  - clear Hl. induction Hs as [|x l Hs IH Hx]; [constructor|].
    rewrite filter_cons. destruct (decide (x < b)); [|done].
    constructor; [done|]. rewrite Forall_forall in Hx |- *.
    intros y [_ Hy]%list_elem_of_filter. by apply Hx.
  - intros p. rewrite list_elem_of_filter, Hl. split; [tauto|].
    intros [? ?]. split; [done|]. split; [done|lia].
Qed.

(** X1. A smaller sieve is the beginning of a larger one. *)
Theorem generate_sieve_prefix (f1 f2 : nat) (n m : Z) :
  0 <= n <= m -> enough f1 n -> enough f2 m ->
  exists t,
    generate_sieve f2 m = Return t /\
    generate_sieve f1 n = Return (take (Z.to_nat (n + 1)) t).
Proof.
  intros Hnm H1 H2.
  destruct (generate_sieve_table f2 m) as (t & Ht & Htab); [done|lia|].
  destruct (generate_sieve_table f1 n) as (t' & Ht' & Htab'); [done|lia|].
  exists t. split; [done|]. rewrite Ht'. f_equal.
  apply (table_of_unique n Z.prime); [done|]. by apply (table_of_take n m).
Qed.

Lemma generate_sieve_prefix_witness :
  0 <= 6 <= 15 /\ enough 6 6 /\ enough 15 15 /\
  exists t,
    generate_sieve 15 15 = Return t /\
    generate_sieve 6 6 = Return (take (Z.to_nat (6 + 1)) t).
Proof.
  split; [lia|]. split; [unfold enough; lia|]. split; [unfold enough; lia|].
  apply (generate_sieve_prefix 6 15 6 15); [lia|unfold enough; lia..].
Defined.

(** X2. [sum_primes n] is the sum of the sequence [get_all_primes_up_to (n - 1)]. *)
Theorem sum_primes_sums_enumeration (fuel : nat) (n : Z) :
  1 <= n -> enough fuel n ->
  exists l,
    get_all_primes_up_to fuel (n - 1) = Return l /\
    sum_primes fuel n = Return (sum l).
Proof.
  intros Hn Hfuel.
  destruct (get_all_primes_up_to_primes_below fuel (n - 1)) as (l & Hl & Hpb);
    [lia|unfold enough in *; lia|].
  destruct (sum_primes_primes_below fuel n) as (l' & Hl' & Hpb'); [lia|done|].
  exists l. split; [done|]. rewrite Hl'. do 2 f_equal.
  replace (n - 1 + 1) with n in Hpb by lia.
  by apply (primes_below_unique n).
Qed.

Lemma sum_primes_sums_enumeration_witness :
  1 <= 12 /\ enough 12 12 /\
  exists l,
    get_all_primes_up_to 12 (12 - 1) = Return l /\
    sum_primes 12 12 = Return (sum l).
Proof.
  split; [lia|]. split; [unfold enough; lia|].
  apply (sum_primes_sums_enumeration 12 12); [lia|unfold enough; lia].
Defined.

(** X3. The primes up to a smaller bound are those of a larger enumeration that
    do not exceed it. *)
Theorem get_all_primes_up_to_restricts (f1 f2 : nat) (n m : Z) :
  0 <= n <= m -> enough f1 n -> enough f2 m ->
  exists l,
    get_all_primes_up_to f2 m = Return l /\
    get_all_primes_up_to f1 n = Return (filter (fun p => p < n + 1) l).
Proof.
  intros Hnm H1 H2.
  destruct (get_all_primes_up_to_primes_below f2 m) as (l & Hl & Hpb);
    [lia|done|].
  destruct (get_all_primes_up_to_primes_below f1 n) as (l' & Hl' & Hpb');
    [lia|done|].
  exists l. split; [done|]. rewrite Hl'. f_equal.
  apply (primes_below_unique (n + 1)); [done|].
  apply (primes_below_filter _ (m + 1)); [lia|done].
Qed.

Lemma get_all_primes_up_to_restricts_witness :
  0 <= 10 <= 30 /\ enough 10 10 /\ enough 30 30 /\
  exists l,
    get_all_primes_up_to 30 30 = Return l /\
    get_all_primes_up_to 10 10 = Return (filter (fun p => p < 10 + 1) l).
Proof.
  split; [lia|]. split; [unfold enough; lia|]. split; [unfold enough; lia|].
  apply (get_all_primes_up_to_restricts 10 30 10 30); [lia|unfold enough; lia..].
Defined.

(** *** Unique factorisation *)

Lemma product_cons (x : Z) (l : list Z) : product (x :: l) = x * product l.
Proof. done. Qed.

Lemma product_primes_pos (l : list Z) : Forall Z.prime l -> 1 <= product l.
Proof.
  induction 1 as [|p l Hp%Z.prime_ge_2 _ IH]; [done|].
  rewrite product_cons. nia.
Qed.

Lemma product_primes_pow2 (l : list Z) :
  Forall Z.prime l -> 2 ^ Z.of_nat (length l) <= product l.
Proof.
  induction 1 as [|p l Hp%Z.prime_ge_2 Hl IH]; [done|].
  rewrite product_cons. simpl length.
  rewrite Nat2Z.inj_succ, Z.pow_succ_r by lia.
  pose proof (Z.pow_pos_nonneg 2 (Z.of_nat (length l))). nia.
Qed.

Lemma product_Permutation (l k : list Z) : l ≡ₚ k -> product l = product k.
Proof. unfold product. induction 1; simpl; lia. Qed.

Lemma elem_of_divides_product (p : Z) (l : list Z) :
  p ∈ l -> (p | product l).
Proof.
  induction l as [|x l IH]; [by intros ?%elem_of_nil|].
  rewrite product_cons. intros [->|Hin]%elem_of_cons.
  - apply Z.divide_mul_l, Z.divide_refl.
  - apply Z.divide_mul_r. by apply IH.
Qed.

(** Euclid's lemma over a sequence of primes. *)
Lemma prime_divides_product (p : Z) (l : list Z) :
  Z.prime p -> Forall Z.prime l -> (p | product l) -> p ∈ l.
Proof.
  intros Hp. induction 1 as [|q l Hq Hl IH].
  - intros Hdiv. apply Z.divide_1_r in Hdiv.
    apply Z.prime_ge_2 in Hp. unfold product in Hdiv. simpl in Hdiv. lia.
  - rewrite product_cons. intros [Hdiv|Hdiv]%Z.divide_prime_mul; [|by right; apply IH|done].
    apply Z.divide_prime_prime in Hdiv as ->; [by left|done..].
Qed.

Lemma prime_lists_Permutation (l1 l2 : list Z) :
  Forall Z.prime l1 -> Forall Z.prime l2 -> product l1 = product l2 ->
  l1 ≡ₚ l2.
Proof.
  intros H1. revert l2. induction H1 as [|p l1 Hp Hl1 IH]; intros l2 H2 Hprod.
  - destruct H2 as [|q l2 Hq Hl2]; [done|].
    rewrite product_cons in Hprod. unfold product in Hprod at 1. simpl in Hprod.
    apply Z.prime_ge_2 in Hq. apply product_primes_pos in Hl2. nia.
  - assert (p ∈ l2) as Hin.
    { apply prime_divides_product; [done..|].
      rewrite <- Hprod, product_cons. apply Z.divide_mul_l, Z.divide_refl. }
    apply elem_of_Permutation in Hin as [l2' Hl2'].
    rewrite Hl2'. constructor. apply IH.
    + rewrite Hl2' in H2. by inv H2.
    + rewrite (product_Permutation _ _ Hl2'), !product_cons in Hprod.
      apply Z.prime_ge_2 in Hp. nia.
Qed.

Lemma prime_lists_unique (l1 l2 : list Z) :
  Forall Z.prime l1 -> Forall Z.prime l2 ->
  StronglySorted Z.le l1 -> StronglySorted Z.le l2 ->
  product l1 = product l2 -> l1 = l2.
Proof.
  intros H1 H2 Hs1 Hs2 Hprod.
  apply (StronglySorted_unique_strong Z.le); try done.
  - intros x y _ _ ? ?. lia.
  - by apply prime_lists_Permutation.
Qed.

(** X4. [prime_factors n] is the only ascending sequence of primes whose product
    is [n]. *)
Theorem prime_factors_unique (fuel : nat) (n : Z) (fs : list Z) :
  enough fuel n ->
  Forall Z.prime fs -> StronglySorted Z.le fs -> product fs = n ->
  prime_factors fuel n = Return fs.
Proof.
  intros Hfuel Hps Hs Hprod.
  pose proof (product_primes_pos _ Hps).
  destruct (prime_factors_factoring fuel n) as (fs' & -> & Hps' & Hs' & Hprod');
    [done|lia|].
  f_equal. apply prime_lists_unique; try done. congruence.
Qed.

Lemma prime_factors_unique_witness :
  enough 84 84 /\ Forall Z.prime [2; 2; 3; 7] /\
  StronglySorted Z.le [2; 2; 3; 7] /\ product [2; 2; 3; 7] = 84 /\
  prime_factors 84 84 = Return [2; 2; 3; 7].
Proof.
  assert (Forall Z.prime [2; 2; 3; 7]) as Hps.
  { repeat apply Forall_cons_2; try apply Forall_nil_2;
      try apply Z.prime_2; try apply Z.prime_3.
    split; [lia|]. intros d Hd [q Hq].
    assert (d = 2 \/ d = 3 \/ d = 4 \/ d = 5 \/ d = 6) as Hcases by lia.
    destruct Hcases as [->|[->|[->|[->| ->]]]]; lia. }
  assert (StronglySorted Z.le [2; 2; 3; 7]) as Hs.
  { repeat (apply SSorted_cons; [|repeat apply Forall_cons_2; try apply Forall_nil_2; lia]).
    apply SSorted_nil. }
  assert (enough 84 84) as Hfuel by (unfold enough; lia).
  split; [done|]. split; [done|]. split; [done|]. split; [reflexivity|].
  apply (prime_factors_unique 84 84 [2; 2; 3; 7] Hfuel Hps Hs). reflexivity.
Defined.

(** X5. For [n >= 2], [is_prime n] holds exactly when [prime_factors n] is the
    one-element sequence [n]. *)
Theorem is_prime_iff_sole_factor (fuel : nat) (n : Z) :
  2 <= n -> enough fuel n ->
  is_prime fuel n = Return true <-> prime_factors fuel n = Return [n].
Proof.
  intros Hn Hfuel.
  destruct (is_prime_reflects fuel n Hfuel) as (b & Hb & Hiff).
  destruct (prime_factors_factoring fuel n) as (fs & Hfs & Hps & Hs & Hprod);
    [done|lia|].
  rewrite Hb, Hfs. split.
  - intros [= ->]. f_equal. apply prime_lists_unique; try done.
    + apply Forall_singleton. by apply Hiff.
    + repeat constructor.
    + rewrite Hprod. unfold product. simpl. lia.
  - intros [= ->]. f_equal. apply Hiff. exact (Forall_inv Hps).
Qed.

Lemma is_prime_iff_sole_factor_witness :
  2 <= 13 /\ enough 13 13 /\
  (is_prime 13 13 = Return true <-> prime_factors 13 13 = Return [13]).
Proof.
  split; [lia|]. split; [unfold enough; lia|].
  apply (is_prime_iff_sole_factor 13 13); [lia|unfold enough; lia].
Defined.

(** X6. The factors of a product are the factors of its two parts, put
    together. *)
Theorem prime_factors_mul (fuel : nat) (a b : Z) :
  1 <= a -> 1 <= b -> enough fuel (a * b) ->
  exists fa fb fab,
    prime_factors fuel a = Return fa /\
    prime_factors fuel b = Return fb /\
    prime_factors fuel (a * b) = Return fab /\
    fab ≡ₚ fa ++ fb.
Proof.
  intros Ha Hb Hfuel. unfold enough in Hfuel.
  destruct (prime_factors_factoring fuel a) as (fa & Hfa & Hpa & _ & Hproda);
    [unfold enough; nia|done|].
  destruct (prime_factors_factoring fuel b) as (fb & Hfb & Hpb & _ & Hprodb);
    [unfold enough; nia|done|].
  destruct (prime_factors_factoring fuel (a * b))
    as (fab & Hfab & Hpab & _ & Hprodab); [done|nia|].
  exists fa, fb, fab. repeat (split; [done|]).
  apply prime_lists_Permutation; [done|by apply Forall_app_2|].
  rewrite product_app. congruence.
Qed.

Lemma prime_factors_mul_witness :
  1 <= 6 /\ 1 <= 10 /\ enough 60 (6 * 10) /\
  exists fa fb fab,
    prime_factors 60 6 = Return fa /\
    prime_factors 60 10 = Return fb /\
    prime_factors 60 (6 * 10) = Return fab /\
    fab ≡ₚ fa ++ fb.
Proof.
  split; [lia|]. split; [lia|]. split; [unfold enough; lia|].
  apply (prime_factors_mul 60 6 10); [lia|lia|unfold enough; lia].
Defined.

(** X7. The members of [prime_factors n] are exactly the primes that divide
    [n], and there are at most [log2 n] of them, counted with repetition. *)
Theorem prime_factors_members (fuel : nat) (n : Z) :
  1 <= n -> enough fuel n ->
  exists fs,
    prime_factors fuel n = Return fs /\
    (forall p, p ∈ fs <-> Z.prime p /\ (p | n)) /\
    2 ^ Z.of_nat (length fs) <= n.
Proof.
  intros Hn Hfuel.
  destruct (prime_factors_factoring fuel n) as (fs & Hfs & Hps & _ & Hprod);
    [done..|].
  exists fs. split; [done|]. split.
  - intros p. split.
    + intros Hin. split; [by eapply Forall_forall in Hps|].
      rewrite <- Hprod. by apply elem_of_divides_product.
    + intros [Hp Hdiv]. apply prime_divides_product; [done..|]. by rewrite Hprod.
  - rewrite <- Hprod. by apply product_primes_pow2.
Qed.

Lemma prime_factors_members_witness :
  1 <= 360 /\ enough 360 360 /\
  exists fs,
    prime_factors 360 360 = Return fs /\
    (forall p, p ∈ fs <-> Z.prime p /\ (p | 360)) /\
    2 ^ Z.of_nat (length fs) <= 360.
Proof.
  split; [lia|]. split; [unfold enough; lia|].
  apply (prime_factors_members 360 360); [lia|unfold enough; lia].
Defined.

(** ** Rules for the loops of the other modules *)

Lemma range_snoc (a b : Z) : a <= b -> range a (b + 1) = range a b ++ [b].
Proof.
  intros Hab. unfold range.
  replace (b + 1 - a) with (Z.of_nat (S (Z.to_nat (b - a)))) by lia.
  rewrite seqZ_S. do 2 f_equal; lia.
Qed.

Lemma sum_snoc (l : list Z) (x : Z) : sum (l ++ [x]) = sum l + x.
Proof. rewrite sum_app. unfold sum. simpl. lia. Qed.

(** A [for] loop over a list keeps an invariant of the elements seen so
    far. *)
Lemma for_loop_list {S : Type} (I : list Z -> S -> Prop)
    (body : Z -> S -> outcome S) (xs : list Z) (s : S) :
  I [] s ->
  (forall pre x suf s, xs = pre ++ x :: suf -> I pre s ->
     exists s', body x s = Return s' /\ I (pre ++ [x]) s') ->
  exists s', for_loop xs body s = Return s' /\ I xs s'.
Proof.
  intros Hs Hbody.
  assert (forall suf pre s, xs = pre ++ suf -> I pre s ->
            exists s', for_loop suf body s = Return s' /\ I xs s') as Hgen.
  { intros suf. induction suf as [|x suf IH]; intros pre s0 Hxs Hpre.
    - rewrite app_nil_r in Hxs. subst pre. simpl. eauto.
    - simpl. destruct (Hbody pre x suf s0 Hxs Hpre) as (s1 & -> & Hs1). simpl.
      apply (IH (pre ++ [x])); [|done]. by rewrite <- app_assoc. }
  by apply (Hgen xs []).
Qed.

(** A loop that appends [vector[i]] for each [i] of a list of valid indices
    gathers the elements at these indices. *)
Lemma gather_loop (vector : list Z) (xs : list Z) (result : list Z) :
  Forall (fun i => 0 <= i < len vector) xs ->
  for_loop xs
    (fun i result => let* x := getitem vector i in Return (result ++ [x]))
    result
  = Return (result ++ ((fun i => vector !!! Z.to_nat i) <$> xs)).
Proof.
  intros Hxs. revert result.
  induction Hxs as [|i xs Hi Hxs IH]; intros result; simpl.
  - by rewrite app_nil_r.
  - unfold len in Hi.
    destruct (lookup_lt_is_Some_2 vector (Z.to_nat i)) as [x Hx]; [lia|].
    rewrite (getitem_in_range _ _ x) by (done || lia). simpl.
    rewrite IH, <- app_assoc. simpl.
    by rewrite (list_lookup_total_correct _ _ _ Hx).
Qed.

Lemma gather_range (vector : list Z) (a b : Z) :
  0 <= a <= b -> b <= len vector ->
  (fun i => vector !!! Z.to_nat i) <$> range a b
  = take (Z.to_nat (b - a)) (drop (Z.to_nat a) vector).
Proof.
  intros Hab Hb. unfold len in Hb. apply list_eq. intros k.
  rewrite list_lookup_fmap. unfold range.
  destruct (decide (Z.of_nat k < b - a)) as [Hk|Hk].
  - rewrite lookup_seqZ_lt by done. simpl.
    rewrite lookup_take_lt, lookup_drop by lia.
    destruct (lookup_lt_is_Some_2 vector (Z.to_nat a + k)) as [x Hx]; [lia|].
    rewrite Hx. f_equal. apply list_lookup_total_correct.
    by replace (Z.to_nat (a + Z.of_nat k)) with (Z.to_nat a + k)%nat by lia.
  - rewrite lookup_seqZ_ge by lia. simpl.
    by rewrite lookup_take_ge by lia.
Qed.

Lemma range_in_bounds (a b n : Z) :
  0 <= a -> b <= n -> Forall (fun i => 0 <= i < n) (range a b).
Proof. intros Ha Hb. apply Forall_forall. intros i Hi%elem_of_range. lia. Qed.

(** ** [control.single] *)

Lemma sum_range_double (n : Z) : 1 <= n -> 2 * sum (range 1 n) = n * (n - 1).
Proof.
  intros Hn. remember (Z.to_nat (n - 1)) as k eqn:Hk. revert n Hn Hk.
  induction k as [|k IH]; intros n Hn Hk.
  - assert (n = 1) as -> by lia. done.
  - replace n with (n - 1 + 1) at 1 by lia.
    rewrite range_snoc, sum_snoc by lia.
    specialize (IH (n - 1)). lia.
Qed.

(** X8. [sum_range n] is the sum [1 + 2 + ... + (n - 1)] for every [n >= 0], and
    a [ValueError] below zero. *)
Theorem sum_range_sums (n : Z) :
  (0 <= n -> control_single.sum_range n = Return (sum (range 1 n))) /\
  (n < 0 ->
   control_single.sum_range n =
     Raise (ValueError ("n must be non-negative, got: " +++ str n))).
Proof.
  unfold control_single.sum_range. split; intros Hn.
  - destruct (Z.ltb_spec n 0); [lia|]. f_equal.
    destruct (Z.eq_dec n 0) as [->|]; [done|].
    rewrite <- sum_range_double by lia.
    by rewrite Z.mul_comm, Z.div_mul.
  - by destruct (Z.ltb_spec n 0); [|lia].
Qed.

Lemma sum_range_sums_witness :
  0 <= 10 /\ control_single.sum_range 10 = Return (sum (range 1 10)) /\
  -2 < 0 /\
  control_single.sum_range (-2) =
    Raise (ValueError "n must be non-negative, got: -2").
Proof.
  split; [lia|]. split; [apply (proj1 (sum_range_sums 10)); lia|].
  split; [lia|]. apply (proj2 (sum_range_sums (-2))). lia.
Defined.

(** X9. On a list that is not empty, [max_array] returns an element of the list
    that no element exceeds; on the empty list it raises [ValueError]. *)
Theorem max_array_is_maximum (array : list Z) :
  (array <> [] ->
   exists m,
     control_single.max_array (Some array) = Run (Return m) /\
     m ∈ array /\ Forall (fun x => x <= m) array) /\
  control_single.max_array (Some []) =
    Run (Raise (ValueError "Array cannot be empty")).
Proof.
  split; [|done]. intros Hne. unfold control_single.max_array.
  destruct array as [|x0 array]; [done|].
  replace (len (x0 :: array) =? 0) with false
    by (symmetry; apply Z.eqb_neq; unfold len; simpl; lia).
  replace (getitem (x0 :: array) 0) with (Return x0) by done. cbv [bind].
  destruct (for_loop_list
    (fun pre m => m ∈ x0 :: array /\ x0 <= m /\ Forall (fun x => x <= m) pre)
    (fun i max_val => if i >? max_val then Return i else Return max_val)
    (x0 :: array) x0) as (m & -> & Hin & _ & Hall).
  - split; [by left|]. split; [lia|constructor].
  - intros pre x suf m Hxs (Hin & Hx0 & Hall).
    destruct (Z.gtb_spec x m); (eexists; split; [done|]).
    + split; [rewrite Hxs; apply elem_of_app; right; by left|].
      split; [lia|]. apply Forall_app_2; [|by apply Forall_singleton].
      eapply Forall_impl; [exact Hall|]. simpl. lia.
    + split; [done|]. split; [done|].
      apply Forall_app_2; [done|]. apply Forall_singleton. lia.
  - by exists m.
Qed.

Lemma max_array_is_maximum_witness :
  [3; 9; 2] <> [] /\
  exists m,
    control_single.max_array (Some [3; 9; 2]) = Run (Return m) /\
    m ∈ [3; 9; 2] /\ Forall (fun x => x <= m) [3; 9; 2].
Proof. split; [done|]. apply (proj1 (max_array_is_maximum [3; 9; 2])). done. Defined.

Lemma multiples_step (n m : Z) :
  1 <= n -> 0 < m ->
  m * (n / m) * (n / m + 1) =
  m * ((n - 1) / m) * ((n - 1) / m + 1) + 2 * (if decide (n mod m = 0) then n else 0).
Proof.
  intros Hn Hm. pose proof (Z.div_mod n m) as Hdm.
  pose proof (Z.mod_pos_bound n m Hm) as Hr.
  destruct (decide (n mod m = 0)) as [Hz|Hnz].
  - assert ((n - 1) / m = n / m - 1) as ->.
    { symmetry. apply (Z.div_unique _ _ _ (m - 1)); [lia|nia]. }
    nia.
  - assert ((n - 1) / m = n / m) as ->; [|lia].
    symmetry. apply (Z.div_unique _ _ _ (n mod m - 1)); [lia|nia].
Qed.

Lemma sum_multiples_double (n m : Z) :
  1 <= n -> 0 < m ->
  2 * sum (filter (fun i => i mod m = 0) (range 1 n)) =
  m * ((n - 1) / m) * ((n - 1) / m + 1).
Proof.
  intros Hn Hm. remember (Z.to_nat (n - 1)) as k eqn:Hk. revert n Hn Hk.
  induction k as [|k IH]; intros n Hn Hk.
  - assert (n = 1) as -> by lia. replace (1 - 1) with 0 by lia.
    rewrite Z.div_0_l, range_nil by lia. unfold sum. simpl. lia.
  - replace n with (n - 1 + 1) at 1 by lia.
    rewrite range_snoc, filter_app, sum_app by lia.
    rewrite (multiples_step (n - 1) m) by lia.
    specialize (IH (n - 1)). rewrite Z.mul_add_distr_l, IH by lia.
    do 2 f_equal. rewrite filter_cons, filter_nil.
    destruct (decide ((n - 1) mod m = 0)); unfold sum; simpl; lia.
Qed.

(** X10. For [n >= 0] and [m > 0], [sum_modulus n m] is the sum of the multiples
    of [m] among [1, ..., n - 1]. *)
Theorem sum_modulus_sums_multiples (n m : Z) :
  0 <= n -> 0 < m ->
  control_single.sum_modulus n m =
    Return (sum (filter (fun i => i mod m = 0) (range 1 n))).
Proof.
  intros Hn Hm. unfold control_single.sum_modulus, py_floordiv.
  destruct (Z.ltb_spec n 0); [lia|]. destruct (Z.leb_spec m 0); [lia|].
  destruct (Z.eqb_spec m 0); [lia|]. simpl. f_equal.
  destruct (Z.eq_dec n 0) as [->|].
  - change (0 - 1) with (-1). assert ((-1) / m = -1) as ->.
    { symmetry. apply (Z.div_unique _ _ _ (m - 1)); lia. }
    rewrite range_nil by lia. replace (m * -1 * (-1 + 1)) with 0 by lia. done.
  - rewrite <- sum_multiples_double by lia.
    by rewrite Z.mul_comm, Z.div_mul.
Qed.

Lemma sum_modulus_sums_multiples_witness :
  0 <= 100 /\ 0 < 3 /\
  control_single.sum_modulus 100 3 =
    Return (sum (filter (fun i => i mod 3 = 0) (range 1 100))).
Proof.
  split; [lia|]. split; [lia|].
  apply (sum_modulus_sums_multiples 100 3); lia.
Defined.

(** ** [control.double] *)

Lemma sum_squares_closed (n : Z) :
  0 <= n -> 6 * sum ((fun i => i * i) <$> range 0 n) = (n - 1) * n * (2 * n - 1).
Proof.
  intros Hn. remember (Z.to_nat n) as k eqn:Hk. revert n Hn Hk.
  induction k as [|k IH]; intros n Hn Hk.
  - assert (n = 0) as -> by lia. done.
  - replace n with (n - 1 + 1) at 1 by lia.
    rewrite range_snoc, fmap_snoc, sum_snoc by lia.
    specialize (IH (n - 1)). nia.
Qed.

(** X11. For [n >= 0], [sum_square n] is [0*0 + 1*1 + ... + (n-1)*(n-1)]; below
    zero it raises [ValueError]. *)
Theorem sum_square_sums_squares (n : Z) :
  (0 <= n ->
   control_double.sum_square (Some n) =
     Run (Return (sum ((fun i => i * i) <$> range 0 n)))) /\
  (n < 0 ->
   control_double.sum_square (Some n) =
     Run (Raise (ValueError ("n must be non-negative, got: " +++ str n)))).
Proof.
  unfold control_double.sum_square. split; intros Hn.
  - destruct (Z.ltb_spec n 0); [lia|]. do 2 f_equal.
    rewrite <- sum_squares_closed by lia.
    by rewrite Z.mul_comm, Z.div_mul.
  - by destruct (Z.ltb_spec n 0); [|lia].
Qed.

Lemma sum_square_sums_squares_witness :
  0 <= 10 /\
  control_double.sum_square (Some 10) =
    Run (Return (sum ((fun i => i * i) <$> range 0 10))) /\
  -1 < 0 /\
  control_double.sum_square (Some (-1)) =
    Run (Raise (ValueError "n must be non-negative, got: -1")).
Proof.
  split; [lia|]. split; [apply (proj1 (sum_square_sums_squares 10)); lia|].
  split; [lia|]. apply (proj2 (sum_square_sums_squares (-1))). lia.
Defined.

Lemma sum_to_double (i : Z) : 0 <= i -> 2 * sum (range 0 (i + 1)) = i * (i + 1).
Proof.
  intros Hi. remember (Z.to_nat i) as k eqn:Hk. revert i Hi Hk.
  induction k as [|k IH]; intros i Hi Hk.
  - assert (i = 0) as -> by lia. done.
  - rewrite range_snoc, sum_snoc by lia.
    specialize (IH (i - 1)). replace (i - 1 + 1) with i in IH by lia. lia.
Qed.

Lemma sum_triangles_closed (n : Z) :
  0 <= n ->
  6 * sum ((fun i => sum (range 0 (i + 1))) <$> range 0 n) =
  (n - 1) * n * (n + 1).
Proof.
  intros Hn. remember (Z.to_nat n) as k eqn:Hk. revert n Hn Hk.
  induction k as [|k IH]; intros n Hn Hk.
  - assert (n = 0) as -> by lia. done.
  - replace n with (n - 1 + 1) at 1 by lia.
    rewrite range_snoc, fmap_snoc, sum_snoc by lia.
    specialize (IH (n - 1)). pose proof (sum_to_double (n - 1)). nia.
Qed.

(** X12. For [n >= 0], [sum_triangle n] is the sum of the triangular numbers
    [T 0, ..., T (n - 1)], where [T i = 0 + 1 + ... + i]. *)
Theorem sum_triangle_sums_triangles (n : Z) :
  0 <= n ->
  control_double.sum_triangle (Some n) =
    Run (Return (sum ((fun i => sum (range 0 (i + 1))) <$> range 0 n))).
Proof.
  intros Hn. unfold control_double.sum_triangle.
  destruct (Z.ltb_spec n 0); [lia|]. do 2 f_equal.
  rewrite <- sum_triangles_closed by lia.
  by rewrite Z.mul_comm, Z.div_mul.
Qed.

Lemma sum_triangle_sums_triangles_witness :
  0 <= 10 /\
  control_double.sum_triangle (Some 10) =
    Run (Return (sum ((fun i => sum (range 0 (i + 1))) <$> range 0 10))).
Proof. split; [lia|]. apply (sum_triangle_sums_triangles 10). lia. Defined.

(** X14. On lists of equal length, [count_duplicates] returns the number of
    positions at which the two lists agree, which is at most the length and
    is the length when a list is compared with itself; on lists of
    different lengths it raises [ValueError]. *)
Theorem count_duplicates_counts (arr0 arr1 : list Z) :
  (length arr0 = length arr1 ->
   exists c,
     control_double.count_duplicates (Some arr0) (Some arr1) = Run (Return c) /\
     c = Z.of_nat (length (filter (fun p => p.1 = p.2) (zip arr0 arr1))) /\
     0 <= c <= len arr0 /\
     (arr0 = arr1 -> c = len arr0)) /\
  (length arr0 <> length arr1 ->
   control_double.count_duplicates (Some arr0) (Some arr1) =
     Run (Raise (ValueError ("Arrays must have equal length, got: " +++
                             str (len arr0) +++ " and " +++ str (len arr1))))).
Proof.
  unfold control_double.count_duplicates, len. split; intros Hlen.
  - destruct (Z.eqb_spec (Z.of_nat (length arr0)) (Z.of_nat (length arr1)));
      [|lia]. simpl negb. cbv iota.
    destruct (for_loop_range
      (fun i c => c = Z.of_nat (length
         (filter (fun p => p.1 = p.2) (take (Z.to_nat i) (zip arr0 arr1)))))
      (fun i count =>
         let* a := getitem arr0 i in
         let* b := getitem arr1 i in
         if a =? b then Return (count + 1) else Return count)
      0 (Z.of_nat (length arr0)) 0) as (c & -> & Hc); [lia|done| |].
    + intros i c Hi ->.
      destruct (lookup_lt_is_Some_2 arr0 (Z.to_nat i)) as [a Ha]; [lia|].
      destruct (lookup_lt_is_Some_2 arr1 (Z.to_nat i)) as [b Hb]; [lia|].
      rewrite (getitem_in_range _ _ a), (getitem_in_range _ _ b)
        by (done || lia). simpl.
      replace (Z.to_nat (i + 1)) with (S (Z.to_nat i)) by lia.
      assert (zip arr0 arr1 !! Z.to_nat i = Some (a, b)) as Hab.
      { apply lookup_zip_with_Some. by exists a, b. }
      rewrite (take_S_r _ _ _ Hab), filter_app, filter_cons, filter_nil.
      rewrite length_app. simpl.
      destruct (Z.eqb_spec a b), (decide (a = b)); try done;
        (eexists; split; [done|]); simpl; lia.
    + rewrite Nat2Z.id in Hc.
      rewrite take_ge in Hc by (rewrite length_zip_with; lia).
      exists c. split; [done|]. split; [done|]. split.
      * pose proof (length_filter (fun p : Z * Z => p.1 = p.2) (zip arr0 arr1)).
        rewrite length_zip_with in *. lia.
      * intros <-. rewrite Hc. f_equal.
        clear. induction arr0 as [|x l IH]; [done|].
        simpl. rewrite filter_cons. simpl.
        destruct (decide (x = x)); [|done]. simpl. by f_equal.
  - by destruct (Z.eqb_spec (Z.of_nat (length arr0)) (Z.of_nat (length arr1)));
      [lia|].
Qed.

Lemma count_duplicates_counts_witness :
  length [1; 2; 3; 4; 5] = length [1; 3; 2; 4; 5] /\
  (exists c,
     control_double.count_duplicates (Some [1; 2; 3; 4; 5]) (Some [1; 3; 2; 4; 5])
       = Run (Return c) /\
     c = Z.of_nat (length (filter (fun p => p.1 = p.2)
                             (zip [1; 2; 3; 4; 5] [1; 3; 2; 4; 5]))) /\
     0 <= c <= len [1; 2; 3; 4; 5] /\
     ([1; 2; 3; 4; 5] = [1; 3; 2; 4; 5] -> c = len [1; 2; 3; 4; 5])) /\
  length [1; 2] <> length [1] /\
  control_double.count_duplicates (Some [1; 2]) (Some [1]) =
    Run (Raise (ValueError "Arrays must have equal length, got: 2 and 1")).
Proof.
  split; [done|]. split.
  - apply (proj1 (count_duplicates_counts [1; 2; 3; 4; 5] [1; 3; 2; 4; 5])). done.
  - split; [done|]. apply (proj2 (count_duplicates_counts [1; 2] [1])). done.
Defined.

(** *** The frequency dictionary of [count_pairs] *)

Lemma dict_get_set (d : dict) (k k' v default : Z) :
  dict_get (dict_set d k v) k' default =
  if decide (k' = k) then v else dict_get d k' default.
Proof.
  induction d as [|[k0 v0] d IH]; simpl.
  - destruct (Z.eqb_spec k k'), (decide (k' = k)); done || lia.
  - destruct (Z.eqb_spec k0 k); simpl.
    + destruct (Z.eqb_spec k0 k'), (decide (k' = k)); done || lia.
    + destruct (Z.eqb_spec k0 k'); [|done].
      destruct (decide (k' = k)); done || lia.
Qed.

Lemma dict_set_keys (d : dict) (k v : Z) :
  (dict_set d k v).*1 = if decide (k ∈ d.*1) then d.*1 else d.*1 ++ [k].
Proof.
  induction d as [|[k0 v0] d IH]; csimpl.
  - destruct (decide (k ∈ [])) as [?%elem_of_nil|]; done.
  - destruct (Z.eqb_spec k0 k) as [->|Hne]; csimpl.
    + destruct (decide (k ∈ k :: d.*1)) as [|Hn]; [done|].
      exfalso. apply Hn. by left.
    + rewrite IH.
      destruct (decide (k ∈ d.*1)) as [Hin|Hin],
        (decide (k ∈ k0 :: d.*1)) as [Hin'|Hin']; try done.
      * exfalso. apply Hin'. by right.
      * apply elem_of_cons in Hin' as [?|?]; [lia|done].
Qed.

Lemma dict_values_keys (d : dict) (g : Z -> Z) :
  NoDup d.*1 -> (forall k, k ∈ d.*1 -> dict_get d k 0 = g k) ->
  dict_values d = g <$> d.*1.
Proof.
  unfold dict_values. induction d as [|[k v] d IH]; [done|]. csimpl.
  intros [Hk Hnd]%NoDup_cons Hget. f_equal.
  - specialize (Hget k). simpl in Hget. rewrite Z.eqb_refl in Hget.
    apply Hget. by left.
  - apply IH; [done|]. intros k' Hk'. specialize (Hget k'). simpl in Hget.
    destruct (Z.eqb_spec k k') as [->|]; [done|]. apply Hget. by right.
Qed.

Lemma occurrences_snoc (v x : Z) (l : list Z) :
  occurrences v (l ++ [x]) =
  occurrences v l + (if decide (v = x) then 1 else 0).
Proof.
  unfold occurrences. rewrite filter_app, length_app, filter_cons, filter_nil.
  destruct (decide (x = v)), (decide (v = x)); try done; simpl; lia.
Qed.

Lemma occurrences_pos (v : Z) (l : list Z) : v ∈ l <-> 0 < occurrences v l.
Proof.
  unfold occurrences. split.
  - intros Hin. assert (v ∈ filter (fun x => x = v) l) as Hf
      by (by apply list_elem_of_filter).
    destruct (filter _ l); [by apply elem_of_nil in Hf|simpl; lia].
  - intros Hpos. destruct (filter (fun x => x = v) l) as [|y k] eqn:Hf;
      [simpl in Hpos; lia|].
    assert (y ∈ filter (fun x => x = v) l) as [-> ?]%list_elem_of_filter
      by (rewrite Hf; by left). done.
Qed.

Lemma frequency_loop (arr : list Z) :
  exists d,
    for_loop arr
      (fun value frequency_map =>
         Return (dict_set frequency_map value
                   (dict_get frequency_map value 0 + 1))) [] = Return d /\
    NoDup d.*1 /\ (forall v, v ∈ d.*1 <-> v ∈ arr) /\
    (forall v, dict_get d v 0 = occurrences v arr).
Proof.
  apply (for_loop_list
    (fun pre d => NoDup d.*1 /\ (forall v, v ∈ d.*1 <-> v ∈ pre) /\
                  (forall v, dict_get d v 0 = occurrences v pre))).
  - split; [constructor|]. split; done.
  - intros pre x suf d _ (Hnd & Hkeys & Hget). eexists; split; [done|].
    rewrite dict_set_keys. split; [|split].
    + destruct (decide (x ∈ d.*1)); [done|].
      apply NoDup_app. split; [done|]. split; [|apply NoDup_singleton].
      intros y Hy ->%list_elem_of_singleton. done.
    + intros v. rewrite elem_of_app, list_elem_of_singleton, <- Hkeys.
      destruct (decide (x ∈ d.*1)); [|by rewrite elem_of_app, list_elem_of_singleton].
      split; [tauto|]. intros [?| ->]; done.
    + intros v. rewrite dict_get_set, occurrences_snoc, <- !Hget.
      destruct (decide (v = x)) as [->|]; lia.
Qed.

Lemma count_loop (vals : list Z) (count : Z) :
  for_loop vals
    (fun freq count => if freq =? 2 then Return (count + 1) else Return count)
    count
  = Return (count + Z.of_nat (length (filter (fun f => f = 2) vals))).
Proof.
  revert count. induction vals as [|f vals IH]; intros count; simpl.
  - f_equal. lia.
  - rewrite filter_cons.
    destruct (Z.eqb_spec f 2), (decide (f = 2)); try done; simpl;
      rewrite IH; f_equal; lia.
Qed.

Lemma length_filter_fmap (g : Z -> Z) (l : list Z) :
  length (filter (fun f => f = 2) (g <$> l)) =
  length (filter (fun v => g v = 2) l).
Proof.
  induction l as [|x l IH]; [done|]. rewrite fmap_cons, !filter_cons.
  destruct (decide (g x = 2)); simpl; by rewrite IH.
Qed.

(** X13. [count_pairs] returns the number of distinct values that occur exactly
    twice in the list: however the values of the list are enumerated without
    repetition, it is the number of them with two occurrences. *)
Theorem count_pairs_counts (arr vals : list Z) :
  NoDup vals -> (forall v, v ∈ vals <-> v ∈ arr) ->
  control_double.count_pairs (Some arr) =
    Run (Return (Z.of_nat (length
      (filter (fun v => occurrences v arr = 2) vals)))).
Proof.
  intros Hnd Hvals. unfold control_double.count_pairs.
  destruct (frequency_loop arr) as (d & Hrun & Hd & Hkeys & Hget).
  cbv zeta. rewrite Hrun. simpl bind. rewrite count_loop. do 2 f_equal.
  rewrite (dict_values_keys d (fun v => occurrences v arr)) by auto.
  rewrite length_filter_fmap, Z.add_0_l. f_equal.
  apply Permutation_length, filter_Permutation, NoDup_Permutation; try done.
  intros v. by rewrite Hkeys, Hvals.
Qed.

Lemma count_pairs_counts_witness :
  NoDup [1; 2; 3; 4; 5] /\
  (forall v, v ∈ [1; 2; 3; 4; 5] <-> v ∈ [1; 2; 3; 4; 5; 2]) /\
  control_double.count_pairs (Some [1; 2; 3; 4; 5; 2]) =
    Run (Return (Z.of_nat (length
      (filter (fun v => occurrences v [1; 2; 3; 4; 5; 2] = 2) [1; 2; 3; 4; 5])))).
Proof.
  assert (NoDup [1; 2; 3; 4; 5]) as Hnd.
  { by apply (bool_decide_unpack _). }
  assert (forall v, v ∈ [1; 2; 3; 4; 5] <-> v ∈ [1; 2; 3; 4; 5; 2]) as Hvals.
  { intros v. rewrite !elem_of_cons, !elem_of_nil. lia. }
  split; [done|]. split; [done|].
  exact (count_pairs_counts [1; 2; 3; 4; 5; 2] [1; 2; 3; 4; 5] Hnd Hvals).
Defined.

(** ** [datastructures.vector] *)

(** X17. [modify_vector] returns the list with every element incremented by one,
    at the same positions. *)
Theorem modify_vector_increments (vector : list Z) :
  datastructures_vector.modify_vector (Some vector) =
    Run (Return ((fun x => x + 1) <$> vector)).
Proof.
  unfold datastructures_vector.modify_vector, len.
  destruct (for_loop_range
    (fun i v => length v = length vector /\
       forall k, v !! k = if decide (Z.of_nat k < i)
                          then (fun x => x + 1) <$> vector !! k
                          else vector !! k)
    (fun i vector => let* x := getitem vector i in setitem vector i (x + 1))
    0 (Z.of_nat (length vector)) vector) as (v & -> & Hlen & Hv); [lia| | |].
  - split; [done|]. intros k. destruct (decide (Z.of_nat k < 0)); [lia|done].
  - intros i v Hi [Hlen Hv].
    destruct (lookup_lt_is_Some_2 vector (Z.to_nat i)) as [x Hx]; [lia|].
    assert (v !! Z.to_nat i = Some x) as Hvx.
    { rewrite Hv. destruct (decide (Z.of_nat (Z.to_nat i) < i)); [lia|done]. }
    rewrite (getitem_in_range _ _ x) by (done || lia). simpl.
    rewrite setitem_in_range by lia. eexists; split; [done|].
    split; [by rewrite length_insert|]. intros k.
    destruct (decide (k = Z.to_nat i)) as [->|Hne].
    + rewrite list_lookup_insert_eq by lia.
      destruct (decide (Z.of_nat (Z.to_nat i) < i + 1)); [|lia].
      by rewrite Hx.
    + rewrite list_lookup_insert_ne by done. rewrite Hv.
      destruct (decide (Z.of_nat k < i)), (decide (Z.of_nat k < i + 1));
        done || lia.
  - do 2 f_equal. apply list_eq. intros k.
    rewrite Hv, list_lookup_fmap.
    destruct (decide (Z.of_nat k < Z.of_nat (length vector))); [done|].
    by rewrite lookup_ge_None_2 by lia.
Qed.

(** X18. [search_vector] returns, in strictly ascending order, exactly the
    positions at which the list holds the value. *)
Theorem search_vector_finds (vector : list Z) (value : Z) :
  exists indices,
    datastructures_vector.search_vector (Some vector) value
      = Run (Return indices) /\
    StronglySorted Z.lt indices /\
    (forall i, i ∈ indices <->
               0 <= i /\ vector !! Z.to_nat i = Some value).
Proof.
  unfold datastructures_vector.search_vector, len.
  destruct (for_loop_range
    (fun i idx => StronglySorted Z.lt idx /\
       forall j, j ∈ idx <-> 0 <= j < i /\ vector !! Z.to_nat j = Some value)
    (fun i indices =>
       let* x := getitem vector i in
       if x =? value then Return (indices ++ [i]) else Return indices)
    0 (Z.of_nat (length vector)) []) as (idx & -> & Hs & Hidx); [lia| | |].
  - split; [constructor|]. intros j. split; [by intros ?%elem_of_nil|lia].
  - intros i idx Hi [Hs Hidx].
    destruct (lookup_lt_is_Some_2 vector (Z.to_nat i)) as [x Hx]; [lia|].
    rewrite (getitem_in_range _ _ x) by (done || lia). simpl.
    destruct (Z.eqb_spec x value) as [->|Hne]; (eexists; split; [done|]).
    + split.
      * apply StronglySorted_app_2; [|done|repeat constructor].
        intros a b Ha ->%list_elem_of_singleton. apply Hidx in Ha. lia.
      * intros j. rewrite elem_of_app, list_elem_of_singleton, Hidx.
        split; [intros [[? ?]| ->]; (split; [lia|done])|].
        intros [? ?]. destruct (Z.eq_dec j i); [by right|left].
        split; [lia|done].
    + split; [done|]. intros j. rewrite Hidx.
      split; intros [? Hj]; (split; [|done]); [lia|].
      destruct (Z.eq_dec j i) as [->|]; [congruence|lia].
  - exists idx. split; [done|]. split; [done|]. intros j. rewrite Hidx.
    split; [intros [? ?]; (split; [lia|done])|].
    intros [? Hj]. split; [|done]. apply lookup_lt_Some in Hj. lia.
Qed.

Lemma range_step_down (n : Z) :
  0 <= n -> range_step (n - 1) (-1) (-1) = (fun k => n - 1 - k) <$> seqZ 0 n.
Proof.
  intros Hn. unfold range_step. simpl (0 <? -1).
  replace ((n - 1 - -1 - -1 - 1) / - -1) with n
    by (rewrite Z.div_1_r; lia).
  apply list_fmap_ext. intros _ k _. lia.
Qed.

Lemma gather_reversed (vector : list Z) :
  (fun i => vector !!! Z.to_nat i) <$>
    ((fun k => len vector - 1 - k) <$> seqZ 0 (len vector))
  = reverse vector.
Proof.
  unfold len. apply list_eq. intros k. rewrite !list_lookup_fmap.
  destruct (decide (k < length vector)%nat) as [Hk|Hk].
  - rewrite lookup_seqZ_lt by lia. simpl. rewrite reverse_lookup by done.
    destruct (lookup_lt_is_Some_2 vector (length vector - S k)) as [x Hx];
      [lia|].
    rewrite Hx. f_equal. apply list_lookup_total_correct.
    by replace (Z.to_nat (Z.of_nat (length vector) - 1 - (0 + Z.of_nat k)))
      with (length vector - S k)%nat by lia.
  - rewrite lookup_seqZ_ge by lia. simpl.
    by rewrite lookup_ge_None_2 by (rewrite length_reverse; lia).
Qed.

Lemma reverse_vector_reverse (vector : list Z) :
  datastructures_vector.reverse_vector (Some vector) =
    Run (Return (reverse vector)).
Proof.
  unfold datastructures_vector.reverse_vector.
  rewrite range_step_down by (unfold len; lia).
  rewrite gather_loop.
  - by rewrite gather_reversed.
  - apply Forall_forall. intros i (k & -> & Hk)%list_elem_of_fmap.
    apply elem_of_seqZ in Hk. lia.
Qed.

(** X19. [reverse_vector] returns the elements in the opposite order: position
    [i] of the result holds the element at position [len - 1 - i]; reversing
    the result gives the list back. *)
Theorem reverse_vector_involutive (vector : list Z) :
  exists result,
    datastructures_vector.reverse_vector (Some vector) = Run (Return result) /\
    length result = length vector /\
    (forall i, (i < length vector)%nat ->
               result !! i = vector !! (length vector - S i)%nat) /\
    datastructures_vector.reverse_vector (Some result) = Run (Return vector).
Proof.
  exists (reverse vector). split; [apply reverse_vector_reverse|].
  split; [apply length_reverse|]. split; [apply reverse_lookup|].
  by rewrite reverse_vector_reverse, reverse_involutive.
Qed.

Lemma rotate_vector_drop_take (vector : list Z) (positions : Z) :
  0 <= positions -> positions < len vector \/ positions = 0 ->
  datastructures_vector.rotate_vector (Some vector) positions =
    Run (Return (drop (Z.to_nat positions) vector ++
                 take (Z.to_nat positions) vector)).
Proof.
  intros Hp Hlt. unfold datastructures_vector.rotate_vector.
  destruct (Z.ltb_spec positions 0); [lia|].
  assert ((len vector >? 0) && (positions >=? len vector) = false) as ->.
  { apply andb_false_iff. unfold len in *.
    destruct (Z.gtb_spec (Z.of_nat (length vector)) 0); [|by left].
    right. rewrite Z.geb_leb. apply Z.leb_gt. lia. }
  assert (positions <= len vector) by (unfold len in *; lia).
  rewrite gather_loop by (apply range_in_bounds; lia). simpl.
  rewrite gather_loop by (apply range_in_bounds; lia).
  rewrite !gather_range by lia. do 2 f_equal.
  rewrite Z.sub_0_r, drop_0. f_equal.
  apply take_ge. rewrite length_drop. unfold len. lia.
Qed.

(** X20. [rotate_vector] moves the first [positions] elements behind the others:
    the result is a rearrangement of the list in which position [i] holds
    the element at position [(i + positions) mod len]. *)
Theorem rotate_vector_rotates (vector : list Z) (positions : Z) :
  0 <= positions < len vector ->
  exists result,
    datastructures_vector.rotate_vector (Some vector) positions
      = Run (Return result) /\
    result ≡ₚ vector /\
    (forall i, 0 <= i < len vector ->
       result !! Z.to_nat i =
       vector !! Z.to_nat ((i + positions) mod len vector)).
Proof.
  intros Hp. eexists. split; [apply rotate_vector_drop_take; lia|].
  split; [by rewrite Permutation_app_comm, take_drop|].
  intros i Hi. unfold len in *.
  destruct (decide (i + positions < Z.of_nat (length vector))) as [Hlt|Hge].
  - rewrite Z.mod_small by lia.
    rewrite lookup_app_l by (rewrite length_drop; lia).
    rewrite lookup_drop. f_equal. lia.
  - rewrite lookup_app_r by (rewrite length_drop; lia).
    rewrite length_drop, lookup_take_lt by lia.
    f_equal.
    replace ((i + positions) mod Z.of_nat (length vector))
      with (i + positions - Z.of_nat (length vector)); [lia|].
    apply (Z.mod_unique _ _ 1); lia.
Qed.

Lemma rotate_vector_rotates_witness :
  0 <= 2 < len [1; 2; 3; 4; 5] /\
  exists result,
    datastructures_vector.rotate_vector (Some [1; 2; 3; 4; 5]) 2
      = Run (Return result) /\
    result ≡ₚ [1; 2; 3; 4; 5] /\
    (forall i, 0 <= i < len [1; 2; 3; 4; 5] ->
       result !! Z.to_nat i =
       [1; 2; 3; 4; 5] !! Z.to_nat ((i + 2) mod len [1; 2; 3; 4; 5])).
Proof.
  assert (0 <= 2 < len [1; 2; 3; 4; 5]) as H by (unfold len; simpl; lia).
  split; [done|]. exact (rotate_vector_rotates [1; 2; 3; 4; 5] 2 H).
Defined.

(** X21. Rotating by [positions] and then by [len - positions] gives the list
    back. *)
Theorem rotate_vector_inverse (vector : list Z) (positions : Z) :
  0 < positions < len vector ->
  exists result,
    datastructures_vector.rotate_vector (Some vector) positions
      = Run (Return result) /\
    datastructures_vector.rotate_vector (Some result) (len vector - positions)
      = Run (Return vector).
Proof.
  intros Hp. eexists. split; [apply rotate_vector_drop_take; lia|].
  unfold len in Hp.
  assert (length (drop (Z.to_nat positions) vector ++
                  take (Z.to_nat positions) vector) = length vector) as Hlen.
  { rewrite length_app, length_drop, length_take. lia. }
  rewrite rotate_vector_drop_take by (unfold len; rewrite ?Hlen; lia).
  do 2 f_equal. unfold len.
  replace (Z.to_nat (Z.of_nat (length vector) - positions))
    with (length (drop (Z.to_nat positions) vector))
    by (rewrite length_drop; lia).
  by rewrite drop_app_length, take_app_length, take_drop.
Qed.

Lemma rotate_vector_inverse_witness :
  0 < 2 < len [1; 2; 3; 4; 5] /\
  exists result,
    datastructures_vector.rotate_vector (Some [1; 2; 3; 4; 5]) 2
      = Run (Return result) /\
    datastructures_vector.rotate_vector (Some result) (len [1; 2; 3; 4; 5] - 2)
      = Run (Return [1; 2; 3; 4; 5]).
Proof.
  assert (0 < 2 < len [1; 2; 3; 4; 5]) as H by (unfold len; simpl; lia).
  split; [done|]. exact (rotate_vector_inverse [1; 2; 3; 4; 5] 2 H).
Defined.

(** X22. What [rotate_vector] refuses: a negative amount and, on a list that is
    not empty, an amount of at least its length raise [ValueError]; on the
    empty list a positive amount passes both guards and the second loop
    raises [IndexError], while the amount 0 returns the empty list. *)
Theorem rotate_vector_rejects (vector : list Z) (positions : Z) :
  (positions < 0 ->
   datastructures_vector.rotate_vector (Some vector) positions =
     Run (Raise (ValueError ("Rotation amount cannot be negative, got: " +++
                             str positions)))) /\
  (0 < len vector <= positions ->
   datastructures_vector.rotate_vector (Some vector) positions =
     Run (Raise (ValueError ("Rotation amount must be less than size, " +++
                             "got: " +++ str positions +++ " for size: " +++
                             str (len vector))))) /\
  (0 < positions ->
   datastructures_vector.rotate_vector (Some []) positions =
     Run (Raise IndexError)) /\
  datastructures_vector.rotate_vector (Some []) 0 = Run (Return []).
Proof.
  unfold datastructures_vector.rotate_vector. repeat split.
  - intros Hp. by destruct (Z.ltb_spec positions 0); [|lia].
  - intros Hp. destruct (Z.ltb_spec positions 0); [lia|].
    destruct (Z.gtb_spec (len vector) 0); [|lia].
    rewrite Z.geb_leb. destruct (Z.leb_spec (len vector) positions); [done|lia].
  - intros Hp. destruct (Z.ltb_spec positions 0); [lia|]. simpl.
    rewrite range_nil, range_cons by (unfold len; simpl; lia). done.
Qed.

Lemma rotate_vector_rejects_witness :
  -1 < 0 /\
  datastructures_vector.rotate_vector (Some [1; 2]) (-1) =
    Run (Raise (ValueError "Rotation amount cannot be negative, got: -1")) /\
  0 < len [1; 2] <= 2 /\
  datastructures_vector.rotate_vector (Some [1; 2]) 2 =
    Run (Raise (ValueError
                  "Rotation amount must be less than size, got: 2 for size: 2")) /\
  0 < 3 /\
  datastructures_vector.rotate_vector (Some []) 3 = Run (Raise IndexError).
Proof.
  split; [lia|].
  split; [apply (proj1 (rotate_vector_rejects [1; 2] (-1))); lia|].
  split; [unfold len; simpl; lia|].
  split.
  { apply (proj1 (proj2 (rotate_vector_rejects [1; 2] 2))).
    unfold len; simpl; lia. }
  split; [lia|].
  apply (proj1 (proj2 (proj2 (rotate_vector_rejects [] 3)))). lia.
Defined.

Lemma merge_vectors_app (vector1 vector2 : list Z) :
  datastructures_vector.merge_vectors (Some vector1) (Some vector2) =
    Run (Return (vector1 ++ vector2)).
Proof.
  unfold datastructures_vector.merge_vectors.
  rewrite gather_loop by (apply range_in_bounds; lia). simpl.
  rewrite gather_loop by (apply range_in_bounds; lia).
  rewrite !gather_range by (unfold len; lia). do 2 f_equal.
  rewrite !Z.sub_0_r, !drop_0. unfold len. rewrite !Nat2Z.id.
  by rewrite !firstn_all.
Qed.

(** X23. [merge_vectors] returns the first list followed by the second, and
    reversing a merge is merging the reversed lists the other way round. *)
Theorem merge_vectors_concatenates (vector1 vector2 : list Z) :
  exists merged reversed1 reversed2,
    datastructures_vector.merge_vectors (Some vector1) (Some vector2)
      = Run (Return merged) /\
    merged = vector1 ++ vector2 /\
    datastructures_vector.reverse_vector (Some vector1)
      = Run (Return reversed1) /\
    datastructures_vector.reverse_vector (Some vector2)
      = Run (Return reversed2) /\
    datastructures_vector.reverse_vector (Some merged) =
    datastructures_vector.merge_vectors (Some reversed2) (Some reversed1).
Proof.
  exists (vector1 ++ vector2), (reverse vector1), (reverse vector2).
  rewrite !merge_vectors_app, !reverse_vector_reverse.
  repeat split. by rewrite reverse_app.
Qed.

(** ** [datastructures.linked_list] *)

Lemma getslice_in_bounds (l : list Z) (a b : Z) :
  0 <= a <= b -> b <= len l ->
  getslice l a b = take (Z.to_nat (b - a)) (drop (Z.to_nat a) l).
Proof.
  intros Hab Hb. unfold getslice, slice_bound.
  destruct (Z.ltb_spec a 0); [lia|]. destruct (Z.ltb_spec b 0); [lia|].
  by rewrite !Z.min_l, !Z.max_r by lia.
Qed.

Lemma slice_in_bounds (l : list Z) (start end_ : Z) :
  0 <= start <= end_ -> end_ <= len l ->
  datastructures_linked_list.slice (Some l) start end_ =
    Run (Return (take (Z.to_nat (end_ - start)) (drop (Z.to_nat start) l))).
Proof.
  intros Hse He. unfold datastructures_linked_list.slice.
  destruct (Z.ltb_spec start 0); [lia|].
  destruct (Z.gtb_spec start (len l)); [lia|].
  destruct (Z.ltb_spec end_ 0); [lia|].
  destruct (Z.gtb_spec end_ (len l)); [lia|].
  destruct (Z.gtb_spec start end_); [lia|]. simpl.
  by rewrite getslice_in_bounds by lia.
Qed.

(** X24. Within bounds, [slice] returns the [end - start] elements found from
    position [start] on. *)
Theorem slice_extracts (l : list Z) (start end_ : Z) :
  0 <= start <= end_ -> end_ <= len l ->
  exists result,
    datastructures_linked_list.slice (Some l) start end_
      = Run (Return result) /\
    len result = end_ - start /\
    (forall i, 0 <= i < end_ - start ->
       result !! Z.to_nat i = l !! Z.to_nat (start + i)).
Proof.
  intros Hse He. eexists. split; [by apply slice_in_bounds|].
  unfold len in *. split.
  - rewrite length_take, length_drop. lia.
  - intros i Hi. rewrite lookup_take_lt, lookup_drop by lia. f_equal. lia.
Qed.

Lemma slice_extracts_witness :
  0 <= 1 <= 3 /\ 3 <= len [10; 20; 30; 40; 50] /\
  exists result,
    datastructures_linked_list.slice (Some [10; 20; 30; 40; 50]) 1 3
      = Run (Return result) /\
    len result = 3 - 1 /\
    (forall i, 0 <= i < 3 - 1 ->
       result !! Z.to_nat i = [10; 20; 30; 40; 50] !! Z.to_nat (1 + i)).
Proof.
  assert (3 <= len [10; 20; 30; 40; 50]) as H by (unfold len; simpl; lia).
  split; [lia|]. split; [done|].
  apply (slice_extracts [10; 20; 30; 40; 50] 1 3); [lia|done].
Defined.

(** X25. Two slices that meet put together are the slice over both ranges, and
    the slice from 0 to the length is the whole list. *)
Theorem slice_adjacent (l : list Z) (a b c : Z) :
  0 <= a <= b -> b <= c <= len l ->
  exists r1 r2,
    datastructures_linked_list.slice (Some l) a b = Run (Return r1) /\
    datastructures_linked_list.slice (Some l) b c = Run (Return r2) /\
    datastructures_linked_list.slice (Some l) a c = Run (Return (r1 ++ r2)) /\
    datastructures_linked_list.slice (Some l) 0 (len l) = Run (Return l).
Proof.
  intros Hab Hbc. do 2 eexists.
  split; [apply slice_in_bounds; lia|].
  split; [apply slice_in_bounds; lia|].
  rewrite !slice_in_bounds by (unfold len in *; lia). split.
  - do 2 f_equal.
    replace (Z.to_nat b) with (Z.to_nat a + Z.to_nat (b - a))%nat by lia.
    rewrite <- drop_drop, take_take_drop. f_equal. lia.
  - do 2 f_equal. rewrite drop_0. apply take_ge. unfold len. lia.
Qed.

Lemma slice_adjacent_witness :
  0 <= 1 <= 2 /\ 2 <= 4 <= len [10; 20; 30; 40; 50] /\
  exists r1 r2,
    datastructures_linked_list.slice (Some [10; 20; 30; 40; 50]) 1 2
      = Run (Return r1) /\
    datastructures_linked_list.slice (Some [10; 20; 30; 40; 50]) 2 4
      = Run (Return r2) /\
    datastructures_linked_list.slice (Some [10; 20; 30; 40; 50]) 1 4
      = Run (Return (r1 ++ r2)) /\
    datastructures_linked_list.slice (Some [10; 20; 30; 40; 50])
      0 (len [10; 20; 30; 40; 50]) = Run (Return [10; 20; 30; 40; 50]).
Proof.
  assert (2 <= 4 <= len [10; 20; 30; 40; 50]) as H by (unfold len; simpl; lia).
  split; [lia|]. split; [done|].
  apply (slice_adjacent [10; 20; 30; 40; 50] 1 2 4); [lia|done].
Defined.

(** X26. The order of the checks of [slice]: a start outside [0, size] is
    reported first, as an [IndexError] naming the start, whatever the end;
    then an end outside [0, size], as an [IndexError] naming the end, even
    when it lies below the start; a start above the end is a [ValueError]
    only when both are within bounds. *)
Theorem slice_rejects (l : list Z) (start end_ : Z) :
  (start < 0 \/ len l < start ->
   datastructures_linked_list.slice (Some l) start end_ =
     Rejected (IndexErrorMsg ("Start index out of bounds: " +++ str start +++
                              " for size: " +++ str (len l)))) /\
  (0 <= start <= len l -> end_ < 0 \/ len l < end_ ->
   datastructures_linked_list.slice (Some l) start end_ =
     Rejected (IndexErrorMsg ("End index out of bounds: " +++ str end_ +++
                              " for size: " +++ str (len l)))) /\
  (0 <= end_ < start -> start <= len l ->
   datastructures_linked_list.slice (Some l) start end_ =
     Run (Raise (ValueError
       ("Start index (" +++ str start +++
        ") cannot be greater than end index (" +++ str end_ +++ ")")))).
Proof.
  unfold datastructures_linked_list.slice. repeat split.
  - intros Hs.
    destruct (Z.ltb_spec start 0), (Z.gtb_spec start (len l)); done || lia.
  - intros Hs He.
    destruct (Z.ltb_spec start 0), (Z.gtb_spec start (len l)); try lia.
    destruct (Z.ltb_spec end_ 0), (Z.gtb_spec end_ (len l)); done || lia.
  - intros He Hs.
    destruct (Z.ltb_spec start 0), (Z.gtb_spec start (len l)); try lia.
    destruct (Z.ltb_spec end_ 0), (Z.gtb_spec end_ (len l)); try lia.
    destruct (Z.gtb_spec start end_); done || lia.
Qed.

Lemma slice_rejects_witness :
  (7 < 0 \/ len [1; 2; 3] < 7) /\
  datastructures_linked_list.slice (Some [1; 2; 3]) 7 9 =
    Rejected (IndexErrorMsg "Start index out of bounds: 7 for size: 3") /\
  0 <= 2 <= len [1; 2; 3] /\ (-1 < 0 \/ len [1; 2; 3] < -1) /\
  datastructures_linked_list.slice (Some [1; 2; 3]) 2 (-1) =
    Rejected (IndexErrorMsg "End index out of bounds: -1 for size: 3") /\
  0 <= 1 < 2 /\ 2 <= len [1; 2; 3] /\
  datastructures_linked_list.slice (Some [1; 2; 3]) 2 1 =
    Run (Raise (ValueError
                  "Start index (2) cannot be greater than end index (1)")).
Proof.
  assert (len [1; 2; 3] = 3) as Hlen by done.
  split; [right; lia|].
  split; [apply (proj1 (slice_rejects [1; 2; 3] 7 9)); right; lia|].
  split; [lia|]. split; [left; lia|].
  split; [apply (proj1 (proj2 (slice_rejects [1; 2; 3] 2 (-1)))); [lia|left; lia]|].
  split; [lia|]. split; [lia|].
  apply (proj2 (proj2 (slice_rejects [1; 2; 3] 2 1))); lia.
Defined.

(** ** [algorithms.sort] *)

Lemma swap_lookup (l : list Z) (i j k : nat) (x a : Z) :
  l !! i = Some x -> l !! j = Some a ->
  <[j:=x]> (<[i:=a]> l) !! k =
  if decide (k = j) then Some x else if decide (k = i) then Some a else l !! k.
Proof.
  intros Hi Hj. apply lookup_lt_Some in Hi as Hil. apply lookup_lt_Some in Hj as Hjl.
  destruct (decide (k = j)) as [->|Hkj].
  - by rewrite list_lookup_insert_eq by (rewrite length_insert; lia).
  - rewrite list_lookup_insert_ne by done.
    destruct (decide (k = i)) as [->|Hki].
    + by rewrite list_lookup_insert_eq by lia.
    + by rewrite list_lookup_insert_ne by done.
Qed.

(** One pass of the partition, from position [n0] on: the elements that pass
    the test are swapped to the front of the section, the part of the list
    before [n0] is left alone. *)
Lemma partition_pass (test : Z -> bool) (r0 : list Z) (n0 : Z) :
  0 <= n0 <= len r0 ->
  exists r nv,
    for_loop (S := list Z * Z) (range n0 (len r0))
      (fun i '(result, next_value) =>
         let* x := getitem result i in
         if test x then
           let* a := getitem result next_value in
           let* b := getitem result i in
           let* result := setitem result i a in
           let* result := setitem result next_value b in
           Return (result, next_value + 1)
         else Return (result, next_value))
      (r0, n0) = Return (r, nv) /\
    n0 <= nv <= len r0 /\
    take (Z.to_nat n0) r = take (Z.to_nat n0) r0 /\
    drop (Z.to_nat n0) r ≡ₚ drop (Z.to_nat n0) r0 /\
    (forall k x, n0 <= k < nv -> r !! Z.to_nat k = Some x -> test x = true) /\
    (forall k x, nv <= k -> r !! Z.to_nat k = Some x -> test x = false).
Proof.
  intros Hn0. unfold len in *.
  destruct (for_loop_range (S := list Z * Z)
    (fun i '(r, nv) =>
       length r = length r0 /\ n0 <= nv <= i /\
       take (Z.to_nat n0) r = take (Z.to_nat n0) r0 /\
       drop (Z.to_nat n0) r ≡ₚ drop (Z.to_nat n0) r0 /\
       (forall k x, n0 <= k < nv -> r !! Z.to_nat k = Some x -> test x = true) /\
       (forall k x, nv <= k < i -> r !! Z.to_nat k = Some x -> test x = false))
    (fun i '(result, next_value) =>
       let* x := getitem result i in
       if test x then
         let* a := getitem result next_value in
         let* b := getitem result i in
         let* result := setitem result i a in
         let* result := setitem result next_value b in
         Return (result, next_value + 1)
       else Return (result, next_value))
    n0 (Z.of_nat (length r0)) (r0, n0))
    as ([r nv] & Hrun & Hlen & Hnv & Htake & Hdrop & Hyes & Hno); [lia| | |].
  - split; [done|]. split; [lia|]. split; [done|]. split; [done|].
    split; intros k x ?; lia.
  - intros i [r nv] Hi (Hlen & Hnv & Htake & Hdrop & Hyes & Hno).
    destruct (lookup_lt_is_Some_2 r (Z.to_nat i)) as [x Hx]; [lia|].
    rewrite (getitem_in_range _ _ x) by (done || lia). simpl.
    destruct (test x) eqn:Htest.
    + destruct (lookup_lt_is_Some_2 r (Z.to_nat nv)) as [a Ha]; [lia|].
      rewrite (getitem_in_range _ _ a) by (done || lia). simpl.
      rewrite setitem_in_range by lia. simpl.
      rewrite setitem_in_range by (rewrite length_insert; lia). simpl.
      eexists; split; [done|].
      split; [by rewrite !length_insert|]. split; [lia|].
      split; [by rewrite !take_insert_ge by lia|].
      split.
      { rewrite !drop_insert_ge by lia. rewrite <- Hdrop.
        apply Permutation_insert_swap; rewrite lookup_drop.
        - by replace (Z.to_nat n0 + (Z.to_nat i - Z.to_nat n0))%nat
            with (Z.to_nat i) by lia.
        - by replace (Z.to_nat n0 + (Z.to_nat nv - Z.to_nat n0))%nat
            with (Z.to_nat nv) by lia. }
      split; intros k y Hk; rewrite (swap_lookup _ _ _ _ _ _ Hx Ha).
      * destruct (decide (Z.to_nat k = Z.to_nat nv)); [congruence|].
        destruct (decide (Z.to_nat k = Z.to_nat i)); [lia|].
        apply Hyes. lia.
      * destruct (decide (Z.to_nat k = Z.to_nat nv)); [lia|].
        destruct (decide (Z.to_nat k = Z.to_nat i)) as [Hki|Hki].
        -- intros [= <-]. apply (Hno nv); [lia|done].
        -- apply Hno. lia.
    + eexists; split; [done|]. split; [done|]. split; [lia|].
      split; [done|]. split; [done|]. split; [done|].
      intros k y Hk Hy. destruct (Z.eq_dec k i) as [->|]; [congruence|].
      apply (Hno k); [lia|done].
  - exists r, nv. split; [done|]. split; [lia|]. split; [done|].
    split; [done|]. split; [done|].
    intros k y Hk Hy. apply (Hno k); [|done].
    apply lookup_lt_Some in Hy. lia.
Qed.

(** X27. [dutch_flag_partition] returns a rearrangement of the list made of three
    consecutive sections: the elements below the pivot, those equal to it
    and those above it. *)
Theorem dutch_flag_partition_partitions (arr : list Z) (pivot : Z) :
  exists below equal above,
    algorithms_sort.dutch_flag_partition (Some arr) pivot
      = Run (Return (below ++ equal ++ above)) /\
    below ++ equal ++ above ≡ₚ arr /\
    Forall (fun x => x < pivot) below /\
    Forall (fun x => x = pivot) equal /\
    Forall (fun x => pivot < x) above.
Proof.
  unfold algorithms_sort.dutch_flag_partition. cbv zeta.
  destruct (partition_pass (fun x => x <? pivot) arr 0)
    as (r1 & nv1 & Hrun1 & Hnv1 & _ & Hperm1 & Hlt1 & Hge1);
    [unfold len; lia|].
  cbv beta in Hrun1. rewrite Hrun1. simpl bind.
  rewrite !drop_0 in Hperm1.
  assert (len r1 = len arr) as Hlen1
    by (unfold len; by rewrite (Permutation_length Hperm1)).
  destruct (partition_pass (fun x => x =? pivot) r1 nv1)
    as (r2 & nv2 & Hrun2 & Hnv2 & Htake2 & Hperm2 & Heq2 & Hne2); [lia|].
  cbv beta in Hrun2. rewrite Hrun2. simpl bind.
  assert (r2 ≡ₚ arr) as Hperm.
  { rewrite <- Hperm1, <- (take_drop (Z.to_nat nv1) r2),
      <- (take_drop (Z.to_nat nv1) r1). by rewrite Htake2, Hperm2. }
  assert (len r2 = len arr) as Hlen2
    by (unfold len; by rewrite (Permutation_length Hperm)).
  unfold len in *.
  assert (Forall (fun x => pivot <= x) (drop (Z.to_nat nv1) r2)) as Hge2.
  { rewrite Hperm2. apply Forall_lookup. intros k x Hk.
    rewrite lookup_drop in Hk.
    specialize (Hge1 (nv1 + Z.of_nat k) x). apply Z.ltb_ge, Hge1; [lia|].
    by replace (Z.to_nat (nv1 + Z.of_nat k)) with (Z.to_nat nv1 + k)%nat by lia. }
  exists (take (Z.to_nat nv1) r2),
    (take (Z.to_nat (nv2 - nv1)) (drop (Z.to_nat nv1) r2)),
    (drop (Z.to_nat nv2) r2).
  assert (take (Z.to_nat nv1) r2 ++
          take (Z.to_nat (nv2 - nv1)) (drop (Z.to_nat nv1) r2) ++
          drop (Z.to_nat nv2) r2 = r2) as Hsplit.
  { rewrite app_assoc, take_take_drop.
    replace (Z.to_nat nv1 + Z.to_nat (nv2 - nv1))%nat with (Z.to_nat nv2) by lia.
    apply take_drop. }
  rewrite Hsplit. split; [done|]. split; [done|]. split; [|split].
  - rewrite Htake2. apply Forall_lookup. intros k x Hk.
    apply lookup_take_Some in Hk as [Hk Hkn].
    apply Z.ltb_lt, (Hlt1 (Z.of_nat k)); [lia|]. by rewrite Nat2Z.id.
  - apply Forall_lookup. intros k x Hk.
    apply lookup_take_Some in Hk as [Hk Hkn]. rewrite lookup_drop in Hk.
    apply Z.eqb_eq, (Heq2 (nv1 + Z.of_nat k)); [lia|].
    by replace (Z.to_nat (nv1 + Z.of_nat k)) with (Z.to_nat nv1 + k)%nat by lia.
  - apply Forall_lookup. intros k x Hk.
    assert (pivot <= x).
    { rewrite Forall_lookup in Hge2.
      apply (Hge2 (Z.to_nat nv2 - Z.to_nat nv1 + k)%nat).
      rewrite lookup_drop in Hk |- *. rewrite <- Hk. f_equal. lia. }
    rewrite lookup_drop in Hk.
    assert (x <> pivot); [|lia].
    apply Z.eqb_neq, (Hne2 (nv2 + Z.of_nat k)); [lia|].
    by replace (Z.to_nat (nv2 + Z.of_nat k)) with (Z.to_nat nv2 + k)%nat by lia.
Qed.

(** ** [sum_matrix] *)

Lemma for_loop_guarded_app {S : Type} (xs ys : list Z)
    (body : Z -> S -> guarded S) (s : S) :
  for_loop_guarded (xs ++ ys) body s =
  guarded_bind (for_loop_guarded xs body s) (for_loop_guarded ys body).
Proof.
  revert s. induction xs as [|x xs IH]; intros s; [done|]. simpl.
  destruct (body x s) as [e|[s'|e|]]; simpl; [done|apply IH|done|done].
Qed.

Lemma add_loop (row : list Z) (total : Z) :
  for_loop (range 0 (len row))
    (fun j total => let* x := getitem row j in Return (total + x)) total
  = Return (total + sum row).
Proof.
  unfold len.
  destruct (for_loop_range
    (fun i t => t = total + sum (take (Z.to_nat i) row))
    (fun j total => let* x := getitem row j in Return (total + x))
    0 (Z.of_nat (length row)) total) as (t & -> & ->); [lia| | |].
  - unfold sum. simpl. lia.
  - intros i t Hi ->.
    destruct (lookup_lt_is_Some_2 row (Z.to_nat i)) as [x Hx]; [lia|].
    rewrite (getitem_in_range _ _ x) by (done || lia). simpl.
    eexists; split; [done|].
    replace (Z.to_nat (i + 1)) with (S (Z.to_nat i)) by lia.
    rewrite (take_S_r _ _ _ Hx), sum_snoc. lia.
  - by rewrite Nat2Z.id, firstn_all.
Qed.

Lemma sum_concat_snoc (rows : list (list Z)) (row : list Z) :
  sum (concat (rows ++ [row])) = sum (concat rows) + sum row.
Proof. by rewrite concat_app, sum_app; simpl; rewrite app_nil_r. Qed.

Lemma range_app (a b c : Z) :
  a <= b <= c -> range a c = range a b ++ range b c.
Proof.
  intros Habc. unfold range.
  replace (c - a) with ((b - a) + (c - b)) by lia.
  rewrite seqZ_app by lia. do 2 f_equal; lia.
Qed.

Section sum_matrix.
Variables (good : list (list Z)) (rest : list (option (list Z))).
Let matrix : list (option (list Z)) := (Some <$> good) ++ rest.
Hypothesis good_square : Forall (fun row => len row = len matrix) good.

Let body : Z -> Z -> guarded Z :=
  fun i total =>
    guarded_bind (Run (getitem matrix i))
      (fun row =>
         match row with
         | None => Rejected (TypeError "Matrix row cannot be None")
         | Some row =>
             if negb (len row =? len matrix) then
               Run (Raise (ValueError
                      ("Matrix must be square, expected " +++ str (len matrix) +++
                       " columns but row " +++ str i +++ " has " +++
                       str (len row))))
             else
               Run (for_loop (range 0 (len matrix))
                      (fun j total =>
                         let* x := getitem row j in
                         Return (total + x))
                      total)
         end).

Lemma sum_matrix_good_rows (k : nat) :
  (k <= length good)%nat ->
  for_loop_guarded (range 0 (Z.of_nat k)) body 0 =
    Run (Return (sum (concat (take k good)))).
Proof.
  induction k as [|k IH]; intros Hk; [done|].
  rewrite Nat2Z.inj_succ, <- Z.add_1_r, range_snoc by lia.
  rewrite for_loop_guarded_app, IH by lia. simpl.
  destruct (lookup_lt_is_Some_2 good k) as [row Hrow]; [lia|].
  assert (matrix !! k = Some (Some row)) as Hm.
  { unfold matrix. rewrite lookup_app_l by (rewrite length_fmap; lia).
    by rewrite list_lookup_fmap, Hrow. }
  unfold body at 1.
  rewrite (getitem_in_range _ _ (Some row)) by (rewrite ?Nat2Z.id; done || lia).
  simpl.
  assert (len row = len matrix) as Hlen.
  { rewrite Forall_lookup in good_square. by apply (good_square k). }
  rewrite Hlen, Z.eqb_refl. simpl. rewrite <- Hlen, add_loop.
  by rewrite (take_S_r _ _ _ Hrow), sum_concat_snoc.
Qed.

Lemma sum_matrix_bad_row (bad : option (list Z)) (rest' : list (option (list Z))) :
  rest = bad :: rest' ->
  for_loop_guarded (range 0 (len matrix)) body 0 =
  guarded_bind (body (len good) (sum (concat good)))
    (for_loop_guarded (range (len good + 1) (len matrix)) body).
Proof.
  intros Hrest.
  assert (len matrix = len good + 1 + len rest') as Hlen.
  { unfold matrix, len. rewrite Hrest, length_app, length_fmap. simpl. lia. }
  rewrite (range_app 0 (len good) (len matrix)) by (unfold len in *; lia).
  rewrite for_loop_guarded_app.
  unfold len at 1. rewrite sum_matrix_good_rows, firstn_all by done.
  simpl guarded_bind at 1.
  rewrite (range_cons (len good)) by (unfold len in *; lia). done.
Qed.
End sum_matrix.

(** X15. On a square matrix, [sum_matrix] returns the sum of all its elements. *)
Theorem sum_matrix_sums (rows : list (list Z)) :
  Forall (fun row => length row = length rows) rows ->
  control_double.sum_matrix (Some (Some <$> rows)) =
    Run (Return (sum (concat rows))).
Proof.
  intros Hsq. unfold control_double.sum_matrix. cbv zeta.
  pose proof (sum_matrix_good_rows rows []) as Hgood.
  rewrite app_nil_r in Hgood. unfold len in *.
  rewrite length_fmap in *.
  rewrite Hgood, firstn_all; [done| |done].
  eapply Forall_impl; [exact Hsq|]. simpl. intros row ->. done.
Qed.

Lemma sum_matrix_sums_witness :
  Forall (fun row => length row = length [[1; 2]; [3; 4]]) [[1; 2]; [3; 4]] /\
  control_double.sum_matrix (Some (Some <$> [[1; 2]; [3; 4]])) =
    Run (Return (sum (concat [[1; 2]; [3; 4]]))).
Proof.
  assert (Forall (fun row => length row = length [[1; 2]; [3; 4]])
            [[1; 2]; [3; 4]]) as H by (repeat constructor).
  split; [done|]. exact (sum_matrix_sums [[1; 2]; [3; 4]] H).
Defined.

(** X16. The first row of a matrix that is [None], or whose length is not the
    number of rows, decides the error of [sum_matrix]: a [TypeError] for a
    [None] row, a [ValueError] naming the row otherwise.  The sum of the rows
    before it is dropped. *)
Theorem sum_matrix_first_bad_row (good : list (list Z))
    (bad : option (list Z)) (rest : list (option (list Z))) :
  let matrix := (Some <$> good) ++ bad :: rest in
  Forall (fun row => len row = len matrix) good ->
  (bad = None ->
   control_double.sum_matrix (Some matrix) =
     Rejected (TypeError "Matrix row cannot be None")) /\
  (forall row, bad = Some row -> len row <> len matrix ->
   control_double.sum_matrix (Some matrix) =
     Run (Raise (ValueError
            ("Matrix must be square, expected " +++ str (len matrix) +++
             " columns but row " +++ str (len good) +++ " has " +++
             str (len row))))).
Proof.
  intros matrix Hgood. unfold control_double.sum_matrix. cbv zeta.
  subst matrix.
  rewrite (sum_matrix_bad_row good (bad :: rest) Hgood bad rest eq_refl).
  set (matrix := (Some <$> good) ++ bad :: rest).
  assert (getitem matrix (len good) = Return bad) as Hget.
  { apply getitem_in_range; [unfold len; lia|]. unfold matrix, len.
    rewrite Nat2Z.id, lookup_app_r by (rewrite length_fmap; lia).
    by rewrite length_fmap, Nat.sub_diag. }
  rewrite Hget. simpl. split.
  - by intros ->.
  - intros row -> Hne. by destruct (Z.eqb_spec (len row) (len matrix)).
Qed.

Lemma sum_matrix_first_bad_row_witness :
  Forall (fun row => len row = len ((Some <$> [[1; 2; 3]]) ++ Some [4] :: [None]))
    [[1; 2; 3]] /\
  Some [4] = Some [4] /\
  len [4] <> len ((Some <$> [[1; 2; 3]]) ++ Some [4] :: [None]) /\
  control_double.sum_matrix
    (Some ((Some <$> [[1; 2; 3]]) ++ Some [4] :: [None])) =
    Run (Raise (ValueError
           "Matrix must be square, expected 3 columns but row 1 has 1")).
Proof.
  assert (Forall (fun row =>
            len row = len ((Some <$> [[1; 2; 3]]) ++ Some [4] :: [None]))
            [[1; 2; 3]]) as H by (repeat constructor).
  assert (len [4] <> len ((Some <$> [[1; 2; 3]]) ++ Some [4] :: [None]))
    as Hne by (unfold len; simpl; lia).
  split; [done|]. split; [done|]. split; [done|].
  exact (proj2 (sum_matrix_first_bad_row [[1; 2; 3]] (Some [4]) [None] H)
           [4] eq_refl Hne).
Defined.
